(** * School-regulation checkers over an IFC building model

    A shallow embedding of [parking_checker.py], [floors_checker.py] and
    [class_count_checker.py], and the properties of their fact-derivation
    pipeline: storey resolution, unit scaling, footprint area and the three
    compliance rules.

    Conventions of the embedding:
    - Python [float] values are idealised as exact rationals ([Q]); equality
      of rationals is [Qeq] ([==]).
    - An IFC entity is addressed by its identity ([ident]); the attributes
      the Python code reads with [getattr] are the fields of [Ifc.entity].
      An identity without an entry in the entity table stands for a foreign
      object that has none of these attributes, the case every [getattr]
      default and every [try/except] of the source provides for.
    - The libraries the source calls into (ifcopenshell's geometry kernel,
      shapely's polygon union) are parameters, gathered in
      [ParkingChecker.geom_backend].
    - Streamlit widgets are replaced by function arguments and by the
      returned report records, which hold the values computed and the
      content of the verdict message.
    - A [while] loop is a function with a bound on its iterations ([fuel]);
      that the bound chosen is never reached is proved.
    - The visited set of the storey walks holds [id(st_)]. [Hierarchy]
      keys it by the entity, which is what [id] amounts to when every
      entity is one Python object for the time of a walk;
      [ObjectIdentity] keys it by the address Python gives to the object
      of each iteration, which covers a library that builds a new object
      on every attribute access. [one_object_per_entity] relates the two.
    - Strings are sequences of bytes; [strip], [lower], [upper] and
      [casefold] act on ASCII characters only, as Python's do on ASCII
      text. *)

From Stdlib Require Import QArith Qround Qminmax Qabs Lqa Ascii String.
From stdpp Require Import base option list gmap sets strings sorting.

Set Warnings "-clear-no-such-hyp".

(* ===================================================================== *)
(** * Python conventions *)
(* ===================================================================== *)

Module Py.

(** A call either returns a value or raises. *)
Inductive result (A : Type) : Type :=
| Ok (a : A)
| Raise.
Arguments Ok {A} a.
Arguments Raise {A}.

Definition bind {A B} (r : result A) (k : A -> result B) : result B :=
  match r with
  | Ok a => k a
  | Raise => Raise
  end.

Notation "'let*' x ':=' r 'in' k" := (bind r (fun x => k))
  (at level 10, x name, r at level 100, k at level 200).

(** [try: body  except Exception: handler] *)
Definition try_except {A} (body : result A) (handler : A) : A :=
  match body with
  | Ok a => a
  | Raise => handler
  end.

(** A loop run with a bound on its iterations either finishes or is cut. *)
Inductive run (A : Type) : Type :=
| Done (a : A)
| OutOfFuel.
Arguments Done {A} a.
Arguments OutOfFuel {A}.

(** ** Strings (ASCII) *)

Definition is_lower (c : ascii) : bool :=
  ((97 <=? N_of_ascii c) && (N_of_ascii c <=? 122))%N.
Definition is_upper (c : ascii) : bool :=
  ((65 <=? N_of_ascii c) && (N_of_ascii c <=? 90))%N.

Definition upper_ascii (c : ascii) : ascii :=
  if is_lower c then ascii_of_N (N_of_ascii c - 32) else c.
Definition lower_ascii (c : ascii) : ascii :=
  if is_upper c then ascii_of_N (N_of_ascii c + 32) else c.

Fixpoint map_string (f : ascii -> ascii) (s : string) : string :=
  match s with
  | EmptyString => EmptyString
  | String c s' => String (f c) (map_string f s')
  end.

(** [s.upper()], [s.lower()]; [s.casefold()] coincides with [lower] on
    ASCII text. *)
Definition upper : string -> string := map_string upper_ascii.
Definition lower : string -> string := map_string lower_ascii.
Definition casefold : string -> string := lower.

(** [s.isascii()] *)
Fixpoint isascii (s : string) : bool :=
  match s with
  | EmptyString => true
  | String c s' => (N_of_ascii c <? 128)%N && isascii s'
  end.

(** [c.isspace()]: tab, line feed, vertical tab, form feed, carriage
    return, the four separators 28..31, and the blank. *)
Definition isspace (c : ascii) : bool :=
  let n := N_of_ascii c in
  (((9 <=? n) && (n <=? 13)) || ((28 <=? n) && (n <=? 32)))%N.

Fixpoint lstrip (s : string) : string :=
  match s with
  | EmptyString => EmptyString
  | String c s' => if isspace c then lstrip s' else s
  end.

Fixpoint rstrip (s : string) : string :=
  match s with
  | EmptyString => EmptyString
  | String c s' =>
      match rstrip s' with
      | EmptyString => if isspace c then EmptyString else String c EmptyString
      | r => String c r
      end
  end.

(** [s.strip()] *)
Definition strip (s : string) : string := rstrip (lstrip s).

(** [s.endswith(suffix)] *)
Definition endswith (s suffix : string) : bool :=
  let n := String.length s in
  let k := String.length suffix in
  (k <=? n)%nat && String.eqb (String.substring (n - k) k s) suffix.

(** [needle in s] *)
Fixpoint contains (needle s : string) : bool :=
  String.prefix needle s
  || match s with
     | EmptyString => false
     | String _ s' => contains needle s'
     end.

(** Truthiness of an optional string: [None] and [""] are falsy. *)
Definition truthy_str (o : option string) : bool :=
  match o with
  | Some s => negb (String.eqb s EmptyString)
  | None => false
  end.

(** [a or b] on optional strings. *)
Definition or_str (a b : option string) : option string :=
  if truthy_str a then a else b.

(** [(o or "")] *)
Definition or_empty (o : option string) : string :=
  match o with
  | Some s => s
  | None => EmptyString
  end.

(** ** Numbers *)

Definition Qltb (x y : Q) : bool := negb (Qle_bool y x).

(** Truthiness of a float: zero is falsy. *)
Definition truthy_float (x : Q) : bool := negb (Qeq_bool x 0).

(** [round(x, 2)]: to the nearest hundredth, ties to the even one. *)
Definition round_half_even (x : Q) : Z :=
  let f := Qfloor x in
  let d := (x - inject_Z f)%Q in
  if Qltb d (1 # 2) then f
  else if Qltb (1 # 2) d then (f + 1)%Z
  else if Z.even f then f else (f + 1)%Z.

Definition round2 (x : Q) : Q := (inject_Z (round_half_even (x * 100)) / 100)%Q.

End Py.

Import Py.

(* ===================================================================== *)
(** * The IFC model as the checkers see it *)
(* ===================================================================== *)

Module Ifc.

(** Entity identity: what [obj.id()] stands for, and [id(obj)] when every
    entity is one Python object. *)
Abbreviation ident := nat.

(** What [is_a] is asked about: is the entity an [IfcBuildingStorey]? *)
Inductive kind : Type :=
| IfcBuildingStorey
| IfcSpace
| IfcOther.

Definition kind_eqb (a b : kind) : bool :=
  match a, b with
  | IfcBuildingStorey, IfcBuildingStorey => true
  | IfcSpace, IfcSpace => true
  | IfcOther, IfcOther => true
  | _, _ => false
  end.

(** A quantity of an element quantity set; [AreaValue] is absent on
    quantities that are not areas. *)
Record quantity : Type := { AreaValue : option Q }.

(** A property definition; [Quantities] is empty on property sets. *)
Record property_definition : Type := { Quantities : list quantity }.

(** An [IsDefinedBy] relation. *)
Record rel_defines : Type :=
  { RelatingPropertyDefinition : option property_definition }.

(** A triangulated shape: flat vertex and index buffers. *)
Record shape : Type := { verts : list Q; faces : list nat }.

Record entity : Type := {
  is_a : kind;
  GlobalId : option string;
  Name : option string;
  LongName : option string;
  ObjectType : option string;
  PredefinedType : option string;
  (** [RelatingObject] of each relation in the inverse attribute
      [Decomposes] *)
  Decomposes : list ident;
  (** what [ifcopenshell.util.element.get_container] returns for the
      entity; [None] also when the call raises *)
  container : option ident;
  (** string-valued properties of [Pset_SpaceCommon] *)
  Pset_SpaceCommon : gmap string string;
  IsDefinedBy : list rel_defines;
  Area : option Q
}.

(** An object with none of the attributes. *)
Definition foreign : entity :=
  {| is_a := IfcOther; GlobalId := None; Name := None; LongName := None;
     ObjectType := None; PredefinedType := None; Decomposes := [];
     container := None; Pset_SpaceCommon := ∅; IsDefinedBy := [];
     Area := None |}.

(** A unit of a unit assignment. An attribute is either missing on the
    object, present with value [None], or present with a string. *)
Inductive attr : Type :=
| Missing
| IsNone
| Val (s : string).

Record unit_ : Type := { UnitType : attr; UnitName : attr; Prefix : attr }.

Record unit_assignment : Type := { Units : list unit_ }.

Record model : Type := {
  (** [model.by_id] *)
  by_id : gmap ident entity;
  (** [model.by_type("IfcSpace")] *)
  by_type_IfcSpace : result (list ident);
  (** [model.by_type("IfcUnitAssignment")] *)
  by_type_IfcUnitAssignment : result (list unit_assignment)
}.

Definition entity_of (tbl : gmap ident entity) (i : ident) : entity :=
  default foreign (tbl !! i).

End Ifc.

Import Ifc.

(* ===================================================================== *)
(** * Storey resolution (shared by the floors and the parking checker) *)
(* ===================================================================== *)

Module Hierarchy.

(** [st_.is_a("IfcBuildingStorey")], with a raised exception swallowed. *)
Definition is_storey (tbl : gmap ident entity) (i : ident) : bool :=
  kind_eqb (is_a (entity_of tbl i)) IfcBuildingStorey.

(** [parents[0].RelatingObject if parents else None] with
    [parents = getattr(st_, "Decomposes", None)] *)
Definition parent (tbl : gmap ident entity) (i : ident) : option ident :=
  head (Decomposes (entity_of tbl i)).

(** The loop
<<
    seen = set()
    while st_ and id(st_) not in seen:
        seen.add(id(st_))
        try:
            if st_.is_a("IfcBuildingStorey"): return st_
        except Exception: pass
        parents = getattr(st_, "Decomposes", None)
        st_ = parents[0].RelatingObject if parents else None
>>
    from the state ([st_], [seen]). The result is the storey returned from
    inside the loop ([None] when the loop exits), the final [seen], and a
    ghost count of the executions of the loop body. [fuel] bounds that
    count. *)
Fixpoint climb (fuel : nat) (tbl : gmap ident entity)
         (st_ : option ident) (seen : gset ident)
  : run (option ident * gset ident * nat) :=
  match st_ with
  | None => Done (None, seen, 0)
  | Some i =>
      if decide (i ∈ seen) then Done (None, seen, 0)
      else
        match fuel with
        | 0 => OutOfFuel
        | S fuel' =>
            let seen' := {[i]} ∪ seen in
            if is_storey tbl i then Done (Some i, seen', 1)
            else
              match climb fuel' tbl (parent tbl i) seen' with
              | Done (r, s, n) => Done (r, s, S n)
              | OutOfFuel => OutOfFuel
              end
        end
  end.

(** One walk: the loop entered with an empty [seen]. Every execution of
    the body puts a new identity into [seen], so one more than the number
    of entities is enough fuel ([walk_total]). *)
Definition walk (tbl : gmap ident entity) (start : option ident)
  : run (option ident * gset ident * nat) :=
  climb (S (size tbl)) tbl start ∅.

(** The two walks of [_storey_of_space], in order, each with its result,
    its visited set and its iteration count. The second walk is run only
    when the first did not return. *)
Definition walks (tbl : gmap ident entity) (space : ident)
  : run (list (option ident * gset ident * nat)) :=
  let first :=
    match head (Decomposes (entity_of tbl space)) with
    | Some p => walk tbl (Some p)
    | None => Done (None, ∅, 0)
    end in
  match first with
  | OutOfFuel => OutOfFuel
  | Done (Some sto, s, n) => Done [(Some sto, s, n)]
  | Done (None, s, n) =>
      match walk tbl (container (entity_of tbl space)) with
      | OutOfFuel => OutOfFuel
      | Done w => Done [(None, s, n); w]
      end
  end.

Definition storey_search (tbl : gmap ident entity) (space : ident)
  : run (option ident) :=
  match walks tbl space with
  | Done ws => Done (last ws ≫= λ w, w.1.1)
  | OutOfFuel => OutOfFuel
  end.

(** [_storey_of_space(space)]. The [OutOfFuel] branch is never taken
    ([storey_search_total]). *)
Definition _storey_of_space (tbl : gmap ident entity) (space : ident)
  : option ident :=
  match storey_search tbl space with
  | Done r => r
  | OutOfFuel => None
  end.

(** The chain of decomposition ancestors: [nth_ancestor tbl st k] is [st]
    after [k] steps to the parent. *)
Fixpoint nth_ancestor (tbl : gmap ident entity) (st : option ident) (k : nat)
  : option ident :=
  match k with
  | 0 => st
  | S k' => nth_ancestor tbl (st ≫= parent tbl) k'
  end.

(** [t] is the first storey on the chain from [st]. *)
Definition first_storey (tbl : gmap ident entity) (st : option ident)
           (t : ident) : Prop :=
  ∃ k, nth_ancestor tbl st k = Some t ∧ is_storey tbl t = true ∧
       ∀ j u, j < k → nth_ancestor tbl st j = Some u → is_storey tbl u = false.

(** No node on the chain from [st] is a storey. *)
Definition storey_free (tbl : gmap ident entity) (st : option ident) : Prop :=
  ∀ k u, nth_ancestor tbl st k = Some u → is_storey tbl u = false.

(** What a walk from [st] has to return. *)
Definition walk_spec (tbl : gmap ident entity) (st : option ident)
           (r : option ident) : Prop :=
  match r with
  | Some t => first_storey tbl st t
  | None => storey_free tbl st
  end.

(** The part of a chain already behind the loop: every seen node is no
    storey, and its parent is seen too or is the node the loop is at. *)
Definition behind (tbl : gmap ident entity) (seen : gset ident)
           (st : option ident) : Prop :=
  ∀ s, s ∈ seen →
    is_storey tbl s = false ∧
    ∀ p, parent tbl s = Some p → p ∈ seen ∨ st = Some p.

(** What the resolver has to return, in terms of the two chains it
    follows: the decomposition ancestors of the space, and the
    decomposition ancestors of its container. *)
Definition resolves (tbl : gmap ident entity) (space : ident)
           (r : option ident) : Prop :=
  let p := head (Decomposes (entity_of tbl space)) in
  let c := container (entity_of tbl space) in
  (∃ t, r = Some t ∧ first_storey tbl p t)
  ∨ (storey_free tbl p ∧ walk_spec tbl c r).

End Hierarchy.

(* ===================================================================== *)
(** * parking_checker.py *)
(* ===================================================================== *)

Module ParkingChecker.

(** ** Unit scale *)

(** [str(getattr(u, name, None))] *)
Definition str_or_None (a : attr) : string :=
  match a with
  | Val s => s
  | IsNone | Missing => "None"
  end.

(** [str(getattr(u, "Name", "METRE"))] *)
Definition str_Name (a : attr) : string :=
  match a with
  | Val s => s
  | IsNone => "None"
  | Missing => "METRE"
  end.

(** [str(getattr(u, "Prefix", "") or "")] *)
Definition str_Prefix (a : attr) : string :=
  match a with
  | Val s => s
  | IsNone | Missing => ""
  end.

(** [s in (t1, ..., tn)] *)
Definition str_in (s : string) (ts : list string) : bool :=
  existsb (String.eqb s) ts.

(** The prefix cascade under [if nm in ("METRE", ...)]; [None] when no
    branch returns. *)
Definition metre_scale (pref : string) : option Q :=
  if str_in pref [""; "UNIT"] then Some 1.0%Q
  else if String.eqb pref "MILLI" then Some 0.001%Q
  else if String.eqb pref "CENTI" then Some 0.01%Q
  else if String.eqb pref "DECI" then Some 0.1%Q
  else None.

(** [str(t).upper().endswith("LENGTHUNIT")] with
    [t = getattr(u, "UnitType", None)] *)
Definition is_length_unit (u : unit_) : bool :=
  let t := str_or_None (UnitType u) in
  endswith (upper t) "LENGTHUNIT".

(** [nm] and [pref] of the loop body *)
Definition name_of (u : unit_) : string := upper (str_Name (UnitName u)).
Definition prefix_of (u : unit_) : string := upper (str_Prefix (Prefix u)).

(** [nm in ("METRE", "METRES", "METER", "METERS")] *)
Definition is_metre (u : unit_) : bool :=
  str_in (name_of u) ["METRE"; "METRES"; "METER"; "METERS"].

(** [nm in ("FOOT", "FEET")] *)
Definition is_foot (u : unit_) : bool :=
  str_in (name_of u) ["FOOT"; "FEET"].

(** The body of [for u in ua.Units]: [Some v] when it returns [v], [None]
    when the loop goes on to the next unit. *)
Definition unit_scale (u : unit_) : option Q :=
  if is_length_unit u then
    match (if is_metre u then metre_scale (prefix_of u) else None) with
    | Some v => Some v
    | None => if is_foot u then Some 0.3048%Q else None
    end
  else None.

Fixpoint scan_units (us : list unit_) : Q :=
  match us with
  | [] => 1.0%Q
  | u :: rest =>
      match unit_scale u with
      | Some v => v
      | None => scan_units rest
      end
  end.

Definition _detect_length_scale_meters (ifc : model) : Q :=
  try_except
    (let* uas := by_type_IfcUnitAssignment ifc in
     match uas with
     | [] => Ok 1.0%Q
     | ua :: _ => Ok (scan_units (Units ua))
     end)
    1.0%Q.

(** ** Footprint area from the mesh *)

Definition point : Type := Q * Q.
Definition triangle : Type := point * point * point.

(** A shapely polygon built from the three corners of a triangle. *)
Inductive polygon : Type :=
| Polygon (shell : triangle).

(** [x, y, z = verts[3*i:3*i+3]]; unpacking fewer than three values raises. *)
Definition vertex (verts : list Q) (i : nat) : result (Q * Q * Q) :=
  match take 3 (drop (3 * i) verts) with
  | [x; y; z] => Ok (x, y, z)
  | _ => Raise
  end.

(** The loop [for i in range(0, len(faces), 3)] over the index buffer;
    indexing past its end raises. *)
Fixpoint triangles_loop (verts : list Q) (faces : list nat) (scale : Q)
  : result (list triangle) :=
  match faces with
  | [] => Ok []
  | i0 :: i1 :: i2 :: rest =>
      let* v0 := vertex verts i0 in
      let* v1 := vertex verts i1 in
      let* v2 := vertex verts i2 in
      let* tris := triangles_loop verts rest scale in
      let '(x0, y0, z0) := v0 in
      let '(x1, y1, z1) := v1 in
      let '(x2, y2, z2) := v2 in
      Ok (((x0 * scale, y0 * scale), (x1 * scale, y1 * scale),
           (x2 * scale, z2 * 0 + y2 * scale))%Q :: tris)
  | _ => Raise
  end.

Definition _triangles_from_shape (sh : shape) (scale : Q)
  : result (list triangle) :=
  triangles_loop (verts sh) (faces sh) scale.

(** The geometry libraries the checker imports. *)
Record geom_backend : Type := {
  (** [ifcgeom], [Polygon] and [unary_union] were all imported *)
  available : bool;
  (** [ifcgeom.create_shape(settings, space)] in world coordinates *)
  create_shape : ident -> result shape;
  (** [float(unary_union(polys).area)] *)
  unary_union_area : list polygon -> result Q
}.

(** [try: body  except Exception: return handler], inside a function that
    may itself raise. *)
Definition catch {A} (body : result A) (handler : A) : result A :=
  Ok (try_except body handler).

Definition _space_geom_area_m2 (lib : geom_backend) (space : ident)
           (scale_m : Q) : result (option Q) :=
  if negb (available lib) then Ok None
  else
    match create_shape lib space with
    | Raise => Ok None
    | Ok sh =>
        catch
          (let* tris := _triangles_from_shape sh scale_m in
           let polys := Polygon <$> tris in
           match polys with
           | [] => Ok None
           | _ =>
               let* a := unary_union_area lib polys in
               Ok (Some a)
           end)
          None
    end.

(** ** Footprint area from quantities and attributes *)

(** [val and val > 0] *)
Definition usable (val : option Q) : bool :=
  match val with
  | Some v => truthy_float v && Qltb 0 v
  | None => false
  end.

Fixpoint quantities_loop (qs : list quantity) : option Q :=
  match qs with
  | [] => None
  | qa :: rest =>
      if usable (AreaValue qa) then AreaValue qa else quantities_loop rest
  end.

Fixpoint relations_loop (rels : list rel_defines) : option Q :=
  match rels with
  | [] => None
  | rel :: rest =>
      match RelatingPropertyDefinition rel with
      | None => relations_loop rest
      | Some q =>
          match quantities_loop (Quantities q) with
          | Some v => Some v
          | None => relations_loop rest
          end
      end
  end.

Definition _fallback_space_area_m2 (space : entity) : option Q :=
  match relations_loop (IsDefinedBy space) with
  | Some v => Some v
  | None => if usable (Area space) then Area space else None
  end.

(** [area_for_id(space_id)]; [model.by_id] raises on an unknown id. *)
Definition area_for_id (lib : geom_backend) (ifc : model) (scale_m : Q)
           (space_id : ident) : result (option Q) :=
  match by_id ifc !! space_id with
  | None => Raise
  | Some s =>
      let* a := _space_geom_area_m2 lib space_id scale_m in
      if usable a then Ok a else Ok (_fallback_space_area_m2 s)
  end.

(** ** Names and storey *)

Definition _space_name (s : entity) : string :=
  let ln := strip (or_empty (or_str (LongName s) None)) in
  let nm := strip (or_empty (or_str (Name s) None)) in
  if negb (String.eqb ln "") then ln else nm.

Definition _prefer_storey_name (sto : entity) : string :=
  let nm := strip (or_empty (or_str (LongName sto) (or_str (Name sto) None))) in
  if negb (String.eqb nm "") then nm
  else "Unnamed Storey ("
       ++ or_empty (or_str (GlobalId sto) (Some "NO-ID")) ++ ")".

Definition _storey_of_space := Hierarchy._storey_of_space.

(** ** The checker *)

Definition REQ_PER_STAFF : Q := (1 / 3.0)%Q.
Definition SLOT_AREA : Q := 21.0%Q.

Definition _is_exact_parking (name : string) : bool :=
  String.eqb (lower (strip name)) "parking".

Record row : Type := {
  Space_Name : string;
  Storey : string;
  Area_m2 : option Q;
  row_GlobalId : option string;
  _id : ident
}.

(** One pass of [for s in spaces]: the row appended for [s], if any. *)
Definition row_of (lib : geom_backend) (ifc : model) (scale_m : Q)
           (s : ident) : result (option row) :=
  let e := entity_of (by_id ifc) s in
  let ln := strip (or_empty (or_str (LongName e) None)) in
  let nm := strip (or_empty (or_str (Name e) None)) in
  if _is_exact_parking ln || _is_exact_parking nm then
    let* a := area_for_id lib ifc scale_m s in
    let sto := _storey_of_space (by_id ifc) s in
    Ok (Some
      {| Space_Name :=
           if negb (String.eqb (_space_name e) "") then _space_name e
           else "parking";
         Storey :=
           match sto with
           | Some t => _prefer_storey_name (entity_of (by_id ifc) t)
           | None => "(No storey)"
           end;
         Area_m2 :=
           match a with
           | Some v => if truthy_float v then Some (round2 v) else None
           | None => None
           end;
         row_GlobalId := GlobalId e;
         _id := s |})
  else Ok None.

Fixpoint collect_rows (lib : geom_backend) (ifc : model) (scale_m : Q)
         (spaces : list ident) : result (list row) :=
  match spaces with
  | [] => Ok []
  | s :: rest =>
      let* r := row_of lib ifc scale_m s in
      let* rs := collect_rows lib ifc scale_m rest in
      Ok (match r with Some x => x :: rs | None => rs end)
  end.

(** [r["Area (m2)"] or 0.0] *)
Definition area_or_zero (r : row) : Q :=
  match Area_m2 r with
  | Some v => if truthy_float v then v else 0.0%Q
  | None => 0.0%Q
  end.

(** [sum(r["Area (m2)"] or 0.0 for r in rows)] *)
Definition sum_areas (rows : list row) : Q :=
  foldl (λ acc r, (acc + area_or_zero r)%Q) 0%Q rows.

(** What the verdict box shows: [st.success] with the required slots, the
    available and the usable whole slots and the total area, or [st.error]
    with the required, available and usable slots and the two shortfalls. *)
Inductive message : Type :=
| success (required : Z) (available : Q) (usable : Z) (total : Q)
| error (required : Z) (available : Q) (usable : Z)
        (shortfall : Z) (missing : Q).

Record report : Type := {
  rows : list row;
  total_area : Q;
  slots_raw : Q;
  slots_int : Z;
  req_slots : Z;
  ok : bool;
  short_slots : Z;
  short_area : Q;
  shown : message
}.

(** The part of [render_parking_checker] from "Aggregate totals" to the
    verdict. *)
Definition verdict (rs : list row) (staff_count : Z) : report :=
  let total_area := sum_areas rs in
  let slots_raw :=
    if Qltb 0 total_area then (total_area / SLOT_AREA)%Q else 0.0%Q in
  let slots_int := Qfloor slots_raw in
  let req_slots := Qceiling (inject_Z staff_count * REQ_PER_STAFF) in
  let ok := Qle_bool (inject_Z req_slots) slots_raw in
  let short_slots := Z.max 0 (req_slots - slots_int) in
  let short_area :=
    Qmax 0.0 (inject_Z req_slots * SLOT_AREA - total_area) in
  {| rows := rs; total_area := total_area; slots_raw := slots_raw;
     slots_int := slots_int; req_slots := req_slots; ok := ok;
     short_slots := short_slots; short_area := short_area;
     shown :=
       if ok then success req_slots slots_raw slots_int total_area
       else error req_slots slots_raw slots_int short_slots short_area |}.

(** [render_parking_checker(ifc)] with the staff count entered in the
    widget; [Ok None] when the function returns before the verdict. *)
Definition render_parking_checker (lib : geom_backend) (ifc : model)
           (staff_count : Z) : result (option report) :=
  let scale_m := _detect_length_scale_meters ifc in
  let* spaces := by_type_IfcSpace ifc in
  match spaces with
  | [] => Ok None
  | _ =>
      let* rs := collect_rows lib ifc scale_m spaces in
      Ok (Some (verdict rs staff_count))
  end.

End ParkingChecker.

(* ===================================================================== *)
(** * floors_checker.py *)
(* ===================================================================== *)

Module FloorsChecker.

Definition _norm (s : string) : string := lower (strip s).

Definition _prefer_longname (space : entity) : string :=
  strip (or_empty (or_str (LongName space) (or_str (Name space) None))).

Definition _prefer_storey_name (sto : entity) : string :=
  let nm := strip (or_empty (or_str (LongName sto) (or_str (Name sto) None))) in
  if negb (String.eqb nm "") then nm
  else "Unnamed Storey ("
       ++ or_empty (or_str (GlobalId sto) (Some "NO-ID")) ++ ")".

Definition _storey_of_space := Hierarchy._storey_of_space.

(** [re.sub(r"classroom", "", s, flags=re.IGNORECASE)]: every occurrence
    of [needle], whatever its case, is dropped, scanning left to right.
    [skip] counts the characters of a match still to be dropped. *)
Fixpoint remove_ignorecase (needle : string) (skip : nat) (s : string)
  : string :=
  match s with
  | EmptyString => EmptyString
  | String c s' =>
      match skip with
      | S k => remove_ignorecase needle k s'
      | 0 =>
          if String.prefix (lower needle) (lower s)
          then remove_ignorecase needle (String.length needle - 1) s'
          else String c (remove_ignorecase needle 0 s')
      end
  end.

Record record_ : Type := {
  Space_GlobalId : string;
  Space_Name : string;
  Labeled_Name : string;
  Room_No : string;
  Storey : string
}.

(** The storey name entered for a space. *)
Definition storey_name_of (tbl : gmap ident entity) (sp : ident) : string :=
  match _storey_of_space tbl sp with
  | Some t => _prefer_storey_name (entity_of tbl t)
  | None => "(No storey)"
  end.

Definition is_classroom_space (tbl : gmap ident entity) (sp : ident) : bool :=
  contains "classroom" (_norm (_prefer_longname (entity_of tbl sp))).

Definition record_of (tbl : gmap ident entity) (sp : ident) : record_ :=
  let e := entity_of tbl sp in
  let longname := _prefer_longname e in
  let room_no_str := strip (or_empty (or_str (Name e) None)) in
  let stripped := strip (remove_ignorecase "classroom" 0 longname) in
  let longname_no_cls :=
    if negb (String.eqb stripped "") then stripped else longname in
  {| Space_GlobalId := or_empty (or_str (GlobalId e) None);
     Space_Name := longname;
     Labeled_Name :=
       if negb (String.eqb room_no_str "")
       then strip (room_no_str ++ " " ++ longname_no_cls)
       else longname_no_cls;
     Room_No := room_no_str;
     Storey := storey_name_of tbl sp |}.

(** The loop [for sp in spaces_all] on the state ([records],
    [storey_names]). *)
Fixpoint collect (tbl : gmap ident entity) (spaces_all : list ident)
         (records : list record_) (storey_names : gset string)
  : list record_ * gset string :=
  match spaces_all with
  | [] => (records, storey_names)
  | sp :: rest =>
      if is_classroom_space tbl sp then
        let r := record_of tbl sp in
        collect tbl rest (records ++ [r]) ({[Storey r]} ∪ storey_names)
      else collect tbl rest records storey_names
  end.

(** The order of [sorted(storey_names, key=lambda s: s.lower())]. *)
Definition lower_le (a b : string) : Prop :=
  String.leb (lower a) (lower b) = true.

#[global] Instance lower_le_dec a b : Decision (lower_le a b) :=
  bool_eq_dec (String.leb (lower a) (lower b)) true.

Inductive verdict : Type :=
| Standard (count_levels max_allowed : Z)
| Exceeds (excess count_levels max_allowed : Z).

Record report : Type := {
  records : list record_;
  levels : list string;
  count_levels : Z;
  outcome : verdict
}.

(** [render_floors_with_classrooms(ifc)] with the limit entered in the
    widget; [None] when the spaces cannot be read. *)
Definition render_floors_with_classrooms (ifc : model) (max_allowed : Z)
  : option report :=
  match by_type_IfcSpace ifc with
  | Raise => None
  | Ok spaces_all =>
      let '(records, storey_names) := collect (by_id ifc) spaces_all [] ∅ in
      let levels := merge_sort lower_le (elements storey_names) in
      let count_levels := Z.of_nat (length levels) in
      Some {| records := records; levels := levels;
              count_levels := count_levels;
              outcome :=
                if (count_levels <=? max_allowed)%Z
                then Standard count_levels max_allowed
                else Exceeds (count_levels - max_allowed)
                             count_levels max_allowed |}
  end.

End FloorsChecker.

(* ===================================================================== *)
(** * class_count_checker.py *)
(* ===================================================================== *)

Module ClassCountChecker.

Definition FIXED_ROOM_TERM : string := "classroom".

Record school_type : Type := { label : string; valid_counts : list Z }.

Definition SCHOOL_TYPES : list (string * school_type) :=
  [ ("1", {| label := "first 3-year school"; valid_counts := [6; 9; 12; 15]%Z |});
    ("2", {| label := "second 3-year school"; valid_counts := [6; 9; 12; 15]%Z |});
    ("3", {| label := "mixed type"; valid_counts := [6; 12; 18]%Z |}) ].

(** [SCHOOL_TYPES[key]] *)
Fixpoint getitem (d : list (string * school_type)) (key : string)
  : result school_type :=
  match d with
  | [] => Raise
  | (k, v) :: rest => if String.eqb k key then Ok v else getitem rest key
  end.

Definition _norm (s : option string) : string :=
  casefold (strip (or_empty (or_str s None))).

Definition _get_pset_value (space : entity) (key : string) : option string :=
  match Pset_SpaceCommon space !! key with
  | Some val => if negb (String.eqb (strip val) "") then Some val else None
  | None => None
  end.

Definition _space_is_classroom (space : entity) : bool :=
  let term := casefold FIXED_ROOM_TERM in
  let fields :=
    [ LongName space; Name space; ObjectType space; PredefinedType space;
      _get_pset_value space "LongName"; _get_pset_value space "Name" ] in
  existsb (λ v, String.eqb (_norm v) term)
          (filter (λ v : option string, is_Some v) fields).

(** [sum(1 for s in spaces if p(s))] *)
Definition count_if {A} (p : A -> bool) (xs : list A) : Z :=
  foldl (λ acc x, if p x then (acc + 1)%Z else acc) 0%Z xs.

Definition _count_classrooms (ifc_file : model) : Z :=
  let spaces := try_except (by_type_IfcSpace ifc_file) [] in
  count_if (λ s, _space_is_classroom (entity_of (by_id ifc_file) s)) spaces.

Inductive verdict : Type :=
| result_ok (count : Z) (label : string)
| result_not_ok (count : Z) (label : string) (standards : list Z).

(** [count in standards] *)
Definition Z_in (x : Z) (l : list Z) : bool := existsb (Z.eqb x) l.

(** [render_class_count_checker()] on the session's model and the key of
    the school type chosen in the select box; [Ok None] when no model is
    loaded. *)
Definition render_class_count_checker (session_ifc : option model)
           (sel_key : string) : result (option verdict) :=
  match session_ifc with
  | None => Ok None
  | Some ifc_file =>
      let* ty := getitem SCHOOL_TYPES sel_key in
      let label := label ty in
      let standards := valid_counts ty in
      let count := _count_classrooms ifc_file in
      if Z_in count standards then Ok (Some (result_ok count label))
      else Ok (Some (result_not_ok count label standards))
  end.

End ClassCountChecker.

(* ===================================================================== *)
(** * The resolver as the specification words it *)
(* ===================================================================== *)

Module StoreyOfSpec.
Import Hierarchy.






End StoreyOfSpec.

(* ===================================================================== *)
(** * Concrete models *)
(* ===================================================================== *)

Module Examples.

(** An entity with a class, decomposition parents and a container, and no
    other attribute set. *)
Definition node (k : kind) (parents : list ident) (cont : option ident)
  : entity :=
  {| is_a := k; GlobalId := None; Name := None; LongName := None;
     ObjectType := None; PredefinedType := None; Decomposes := parents;
     container := cont; Pset_SpaceCommon := ∅; IsDefinedBy := [];
     Area := None |}.




End Examples.

Module UnitExamples.

(** [IfcSIUnit(LENGTHUNIT, name, prefix)] *)
Definition si_length (name : string) (prefix : attr) : unit_ :=
  {| UnitType := Val "LENGTHUNIT"; UnitName := Val name; Prefix := prefix |}.


(** A model whose unit assignment declares the given units. *)
Definition with_units (us : list unit_) : model :=
  {| by_id := ∅; by_type_IfcSpace := Ok [];
     by_type_IfcUnitAssignment := Ok [ {| Units := us |} ] |}.


End UnitExamples.

(* ===================================================================== *)
(** * Degenerate triangles, as the specification words them *)
(* ===================================================================== *)

Module FootprintSpec.
Import ParkingChecker.

(** Twice the signed area of a planar triangle. *)
Definition signed_area2 (t : triangle) : Q :=
  let '((x0, y0), (x1, y1), (x2, y2)) := t in
  ((x1 - x0) * (y2 - y0) - (x2 - x0) * (y1 - y0))%Q.




End FootprintSpec.

Module FootprintExamples.
Import ParkingChecker FootprintSpec.

(** The area of one triangle. *)
Definition triangle_area (t : triangle) : Q := (Qabs (signed_area2 t) / 2)%Q.

(** The union of a single polygon is that polygon: the union oracle
    restricted to one-polygon lists. *)
Definition single_polygon_union (polys : list polygon) : result Q :=
  match polys with
  | [Polygon t] => Ok (triangle_area t)
  | _ => Raise
  end.


(** One vertical triangle, a piece of wall: corners (0,0,0), (1,0,0) and
    (1,0,3). Its projection on the ground is a segment. *)
Definition wall_mesh : shape :=
  {| verts := [0; 0; 0; 1; 0; 0; 1; 0; 3]%Q; faces := [0; 1; 2] |}.

(** One horizontal right triangle with legs 4 and 3. *)
Definition floor_mesh : shape :=
  {| verts := [0; 0; 0; 4; 0; 0; 0; 3; 0]%Q; faces := [0; 1; 2] |}.

Definition backend (sh : shape) (union : list polygon → result Q)
  : geom_backend :=
  {| available := true; create_shape := λ _, Ok sh;
     unary_union_area := union |}.

(** A space named "parking" whose [Area] attribute is 12.5. *)
Definition parking_space : entity :=
  {| is_a := IfcSpace; GlobalId := Some "2O2Fr$t4X7Zf8NOew3FLOH";
     Name := Some "P-01"; LongName := Some "Parking";
     ObjectType := None; PredefinedType := None; Decomposes := [];
     container := None; Pset_SpaceCommon := ∅; IsDefinedBy := [];
     Area := Some 12.5%Q |}.

Definition parking_model : model :=
  {| by_id := {[ 7 := parking_space ]}; by_type_IfcSpace := Ok [7];
     by_type_IfcUnitAssignment := Ok [] |}.

End FootprintExamples.

(* ===================================================================== *)
(** * The parking rule, as the specification words it *)
(* ===================================================================== *)

Module ParkingSpec.
Import ParkingChecker.

(** The area of a record, "treating Unknown as 0". *)
Definition known_or_zero (r : row) : Q :=
  match Area_m2 r with
  | Some v => v
  | None => 0
  end.

(** "totalArea = sum of the areas of the parking records" *)
Definition totalArea (rs : list row) : Q :=
  foldr (λ r acc, (known_or_zero r + acc)%Q) 0%Q rs.

End ParkingSpec.

Module ParkingExamples.
Import ParkingChecker FootprintExamples.

(** A parking space with the given mesh behind it is described by its
    quantity set: one area quantity of [a] square metres. *)
Definition parking_with_quantity (a : Q) : entity :=
  {| is_a := IfcSpace; GlobalId := Some "0kF4cPq0r4OhbLvqU9XQ1x";
     Name := Some "parking"; LongName := None;
     ObjectType := None; PredefinedType := None; Decomposes := [];
     container := None; Pset_SpaceCommon := ∅;
     IsDefinedBy :=
       [ {| RelatingPropertyDefinition :=
              Some {| Quantities := [ {| AreaValue := Some a |} ] |} |} ];
     Area := None |}.

(** Two parking spaces of 20.5 m2 each, 41.0 m2 together, and an office. *)
Definition car_park : model :=
  {| by_id := {[ 1 := parking_with_quantity 20.5%Q;
                 2 := parking_with_quantity 20.5%Q;
                 3 := Examples.node IfcSpace [] None ]};
     by_type_IfcSpace := Ok [1; 2; 3];
     by_type_IfcUnitAssignment := Ok [] |}.

(** No geometry library. *)
Definition no_geometry : geom_backend :=
  {| available := false; create_shape := λ _, Raise;
     unary_union_area := λ _, Raise |}.

End ParkingExamples.

(* ===================================================================== *)
(** * The floor and classroom rules, as the specification words them *)
(* ===================================================================== *)

Module RuleSpec.

(** "The number of distinct storey names among the classroom records." *)
Definition distinct_storeys (recs : list FloorsChecker.record_) : Z :=
  Z.of_nat (length (remove_dups (FloorsChecker.Storey <$> recs))).

(** The distinct storey names other than the placeholder for an unresolved
    storey. *)
Definition distinct_named_storeys (recs : list FloorsChecker.record_) : Z :=
  Z.of_nat (length (remove_dups
    (filter (λ s, s ≠ "(No storey)") (FloorsChecker.Storey <$> recs)))).

(** "The number of spaces classified as classroom." *)
Definition classified_as_classroom (ifc : model) : Z :=
  Z.of_nat (length (filter
    (λ s, ClassCountChecker._space_is_classroom (entity_of (by_id ifc) s) = true)
    (try_except (by_type_IfcSpace ifc) []))).

End RuleSpec.

Module SchoolExamples.

Definition storey (name : string) : entity :=
  {| is_a := IfcBuildingStorey; GlobalId := None; Name := Some name;
     LongName := None; ObjectType := None; PredefinedType := None;
     Decomposes := []; container := None; Pset_SpaceCommon := ∅;
     IsDefinedBy := []; Area := None |}.

(** A space with long name "Classroom", room number [no], part of the
    entities [parents]. *)
Definition classroom (no : string) (parents : list ident) : entity :=
  {| is_a := IfcSpace; GlobalId := None; Name := Some no;
     LongName := Some "Classroom"; ObjectType := None;
     PredefinedType := None; Decomposes := parents; container := None;
     Pset_SpaceCommon := ∅; IsDefinedBy := []; Area := None |}.

Definition no_units (tbl : gmap ident entity) (spaces : list ident) : model :=
  {| by_id := tbl; by_type_IfcSpace := Ok spaces;
     by_type_IfcUnitAssignment := Ok [] |}.

(** Classrooms on four storeys. *)
Definition four_levels : model :=
  no_units
    {[ 10 := storey "Level 1"; 11 := storey "Level 2";
       12 := storey "Level 3"; 13 := storey "Level 4";
       1 := classroom "101" [10]; 2 := classroom "201" [11];
       3 := classroom "301" [12]; 4 := classroom "401" [13] ]}
    [1; 2; 3; 4].

(** Classrooms on three storeys. *)
Definition three_levels : model :=
  no_units
    {[ 10 := storey "Level 1"; 11 := storey "Level 2";
       12 := storey "Level 3";
       1 := classroom "101" [10]; 2 := classroom "201" [11];
       3 := classroom "301" [12] ]}
    [1; 2; 3].

(** The same, and one more classroom that is part of no storey. *)
Definition three_levels_and_a_stray : model :=
  no_units
    {[ 10 := storey "Level 1"; 11 := storey "Level 2";
       12 := storey "Level 3";
       1 := classroom "101" [10]; 2 := classroom "201" [11];
       3 := classroom "301" [12]; 4 := classroom "X" [] ]}
    [1; 2; 3; 4].

(** A school of [n] classrooms. *)
Definition classrooms (n : nat) : model :=
  no_units (map_seq 1 (replicate n (classroom "1" []))) (seq 1 n).

End SchoolExamples.

(* ===================================================================== *)
(** * Further parts of the checkers *)
(* ===================================================================== *)

Module ClassCountSelect.
Import ClassCountChecker.

(** The separator of the select-box labels: a blank, an em dash (three
    bytes in UTF-8) and a blank. *)
Definition separator : string :=
  String " " (String "226" (String "128" (String "148" (String " " "")))).

(** [keys = list(SCHOOL_TYPES.keys())] *)
Definition keys : list string := fst <$> SCHOOL_TYPES.

(** [f"{k} — {SCHOOL_TYPES[k]['label']}"] *)
Definition label_for (k : string) : result string :=
  let* ty := getitem SCHOOL_TYPES k in
  Ok (k ++ separator ++ label ty)%string.

(** [labels = [... for k in keys]] *)
Fixpoint labels_for (ks : list string) : result (list string) :=
  match ks with
  | [] => Ok []
  | k :: rest =>
      let* l := label_for k in
      let* ls := labels_for rest in
      Ok (l :: ls)
  end.

Definition labels : result (list string) := labels_for keys.

(** [s.split(sep, 1)[0]]: the part of [s] before the first occurrence of
    [sep], all of [s] when there is none. *)
Fixpoint before_first (sep s : string) : string :=
  if String.prefix sep s then ""
  else
    match s with
    | EmptyString => ""
    | String c s' => String c (before_first sep s')
    end.

(** [render_class_count_checker()] with the entry [sel] chosen in the
    select box: [sel_key = sel.split(" — ", 1)[0]]. *)
Definition render_selected (session_ifc : option model) (sel : string)
  : result (option verdict) :=
  render_class_count_checker session_ifc (before_first separator sel).

End ClassCountSelect.

Module FloorsSummary.
Import FloorsChecker.

(** The order of the group keys: strings in ascending order. *)
Definition str_le (a b : string) : Prop := String.leb a b = true.

#[global] Instance str_le_dec a b : Decision (str_le a b) :=
  bool_eq_dec (String.leb a b) true.

(** The number of records on a storey. *)
Definition size_of_group (records : list record_) (k : string) : Z :=
  Z.of_nat (length (filter (λ r, Storey r = k) records)).

(** [df.groupby("Storey", dropna=False).size().reset_index(...)]: one line
    per distinct storey name, in ascending order, with the number of
    records that carry it. *)
Definition summary (records : list record_) : list (string * Z) :=
  (λ k, (k, size_of_group records k))
    <$> merge_sort str_le (remove_dups (Storey <$> records)).

End FloorsSummary.

Module ParkingRows.
Import ParkingChecker.

(** The test [_is_exact_parking(ln) or _is_exact_parking(nm)] of the loop
    over the spaces. *)
Definition matches_parking (tbl : gmap ident entity) (s : ident) : bool :=
  let e := entity_of tbl s in
  _is_exact_parking (strip (or_empty (or_str (LongName e) None)))
  || _is_exact_parking (strip (or_empty (or_str (Name e) None))).

(** [slots_raw] as a function of the total area:
    [total_area / SLOT_AREA if total_area > 0 else 0.0]. *)
Definition raw_of (total : Q) : Q :=
  if Qltb 0 total then (total / SLOT_AREA)%Q else 0.0%Q.

(** The quantities of all property definitions of a space, in the order the
    two nested loops of [_fallback_space_area_m2] meet them. *)
Definition all_quantities (space : entity) : list quantity :=
  flat_map (λ rel,
              match RelatingPropertyDefinition rel with
              | Some q => Quantities q
              | None => []
              end)
           (IsDefinedBy space).

(** Two triangles with equal coordinates. *)
Definition point_eq (p q : point) : Prop :=
  (p.1 == q.1)%Q ∧ (p.2 == q.2)%Q.

Definition triangle_eq (t u : triangle) : Prop :=
  point_eq t.1.1 u.1.1 ∧ point_eq t.1.2 u.1.2 ∧ point_eq t.2 u.2.

(** Two vertex buffers that differ in vertical coordinates only. *)
Definition same_plan (vs vs' : list Q) : Prop :=
  length vs = length vs' ∧
  ∀ i, vs !! (3 * i) = vs' !! (3 * i) ∧ vs !! (3 * i + 1) = vs' !! (3 * i + 1).

End ParkingRows.

Module HierarchyReads.
Import Hierarchy.

(** The entities the resolver reads for a space: the space, and the nodes
    on the two chains it follows. *)
Definition reads (tbl : gmap ident entity) (space i : ident) : Prop :=
  i = space
  ∨ (∃ k, nth_ancestor tbl (head (Decomposes (entity_of tbl space))) k = Some i)
  ∨ (∃ k, nth_ancestor tbl (container (entity_of tbl space)) k = Some i).

End HierarchyReads.

Module MoreExamples.

(** A storey aggregated under a building, and a classroom on it. *)
Definition small_school : gmap ident entity :=
  {[ 1 := SchoolExamples.classroom "101" [10];
     10 := SchoolExamples.storey "Level 1";
     20 := Examples.node IfcOther [] None ]}.

(** The same with the unrelated entity 20 replaced by a storey. *)
Definition small_school_edited : gmap ident entity :=
  {[ 1 := SchoolExamples.classroom "101" [10];
     10 := SchoolExamples.storey "Level 1";
     20 := SchoolExamples.storey "Roof" ]}.

(** A row of the parking table with the given area. *)
Definition row_with_area (a : Q) : ParkingChecker.row :=
  {| ParkingChecker.Space_Name := "parking";
     ParkingChecker.Storey := "(No storey)";
     ParkingChecker.Area_m2 := Some a;
     ParkingChecker.row_GlobalId := None;
     ParkingChecker._id := 1 |}.

End MoreExamples.
(* ===================================================================== *)
(** * Storey resolution under Python's object identity *)
(* ===================================================================== *)

Module ObjectIdentity.
Import Hierarchy.

(** [id(obj)] is an integer that no two objects alive at the same time
    share; an object created after another one was released may get the
    integer of the released one. ifcopenshell builds a new Python object on
    every attribute access, so the objects bound to [st_] in the iterations
    of a walk are objects of their own, and the visited set of the loop
    holds their addresses, not the entities they stand for.

    An [ids] gives, for one walk, the value of [id(st_)] in each iteration
    of the loop, counted from 0. Which values Python hands out is not in
    the hands of the checker, so the walk is a function of them. *)
Abbreviation address := Z.
Abbreviation ids := (nat → address).

(** The loop of [Hierarchy.climb], with [seen] holding [id(st_)]; [k] is
    the number of the iteration. *)
Fixpoint climb (fuel : nat) (tbl : gmap ident entity) (id_ : ids) (k : nat)
         (st_ : option ident) (seen : gset address)
  : run (option ident * gset address * nat) :=
  match st_ with
  | None => Done (None, seen, 0)
  | Some i =>
      if decide (id_ k ∈ seen) then Done (None, seen, 0)
      else
        match fuel with
        | 0 => OutOfFuel
        | S fuel' =>
            let seen' := {[id_ k]} ∪ seen in
            if is_storey tbl i then Done (Some i, seen', 1)
            else
              match climb fuel' tbl id_ (S k) (parent tbl i) seen' with
              | Done (r, s, n) => Done (r, s, S n)
              | OutOfFuel => OutOfFuel
              end
        end
  end.

(** One walk: the loop entered with an empty [seen]. *)
Definition walk (fuel : nat) (tbl : gmap ident entity) (id_ : ids)
           (start : option ident) : run (option ident * gset address * nat) :=
  climb fuel tbl id_ 0 start ∅.

(** [_storey_of_space(space)], with [id1] the addresses of the objects of
    the first walk and [id2] those of the second. *)
Definition _storey_of_space (fuel : nat) (tbl : gmap ident entity)
           (id1 id2 : ids) (space : ident) : run (option ident) :=
  let first :=
    match head (Decomposes (entity_of tbl space)) with
    | Some p => walk fuel tbl id1 (Some p)
    | None => Done (None, ∅, 0)
    end in
  match first with
  | OutOfFuel => OutOfFuel
  | Done (Some sto, _, _) => Done (Some sto)
  | Done (None, _, _) =>
      match walk fuel tbl id2 (container (entity_of tbl space)) with
      | OutOfFuel => OutOfFuel
      | Done (r, _, _) => Done r
      end
  end.


(** None of the objects of the iterations [0 .. n] got the address of an
    earlier one. *)
Definition no_reuse_upto (id_ : ids) (n : nat) : Prop :=
  ∀ j k, j < k → k ≤ n → id_ j ≠ id_ k.

(** The walk from [st] gets as far as the storey [t]: [t] is the first
    storey on the chain of decomposition ancestors from [st], and no
    address was used twice before the loop reached it. *)
Definition reaches (tbl : gmap ident entity) (id_ : ids) (st : option ident)
           (t : ident) : Prop :=
  ∃ n, nth_ancestor tbl st n = Some t ∧ is_storey tbl t = true
       ∧ (∀ j u, j < n → nth_ancestor tbl st j = Some u →
                 is_storey tbl u = false)
       ∧ no_reuse_upto id_ n.

(** What a walk from [st] returns. *)
Definition walk_result (tbl : gmap ident entity) (id_ : ids)
           (st : option ident) (r : option ident) : Prop :=
  match r with
  | Some t => reaches tbl id_ st t
  | None => ∀ t, ¬ reaches tbl id_ st t
  end.

(** What the resolver returns: the storey the first walk reaches; only if
    it reaches none, what the second walk returns. The first walk starts
    at the decomposition parent of the space, the second at its container,
    and both follow decomposition edges. *)
Definition resolves (tbl : gmap ident entity) (id1 id2 : ids)
           (space : ident) (r : option ident) : Prop :=
  let p := head (Decomposes (entity_of tbl space)) in
  let c := container (entity_of tbl space) in
  (∃ t, r = Some t ∧ reaches tbl id1 p t)
  ∨ ((∀ t, ¬ reaches tbl id1 p t) ∧ walk_result tbl id2 c r).

(** The state of the loop at the start of iteration [k] of the walk from
    [st0]: [st_] is the [k]-th node of the chain, no earlier node is a
    storey, [seen] holds the addresses of the earlier iterations, and
    these are all different. *)
Definition at_iteration (tbl : gmap ident entity) (id_ : ids)
           (st0 : option ident) (k : nat) (st : option ident)
           (seen : gset address) : Prop :=
  st = nth_ancestor tbl st0 k
  ∧ (∀ j u, j < k → nth_ancestor tbl st0 j = Some u →
            is_storey tbl u = false)
  ∧ (∀ a, a ∈ seen ↔ ∃ j, j < k ∧ id_ j = a)
  ∧ (∀ i j, i < j → j < k → id_ i ≠ id_ j).


(** Two addresses in turn: the object of an iteration is released when
    the next one is bound to [st_], and the one after that is put in its
    place. *)
Definition alternating : ids := λ k, if Nat.even k then 0%Z else 1%Z.


End ObjectIdentity.

(* ===================================================================== *)
(** * The unit table, as the specification words it *)
(* ===================================================================== *)

Module UnitSpec.

Definition metre_names : list string := ["METRE"; "METRES"; "METER"; "METERS"].
Definition foot_names : list string := ["FOOT"; "FEET"].

(** The rows of the table for a metre, by prefix. *)
Definition metre_rows : list (string * Q) :=
  [ ("", 1.0%Q); ("UNIT", 1.0%Q); ("MILLI", 0.001%Q); ("CENTI", 0.01%Q);
    ("DECI", 0.1%Q) ].

(** The name and the prefix of a unit, in capitals; a unit without prefix
    has the empty one. *)
Definition name_text (u : unit_) : option string :=
  match UnitName u with
  | Val s => Some (upper s)
  | IsNone | Missing => None
  end.

Definition prefix_text (u : unit_) : string :=
  match Prefix u with
  | Val s => upper s
  | IsNone | Missing => ""
  end.

(** The first row of an association list with the given key. *)
Fixpoint row_for (key : string) (rows : list (string * Q)) : option Q :=
  match rows with
  | [] => None
  | (k, v) :: rest => if String.eqb k key then Some v else row_for key rest
  end.

(** "Maps (unit name, prefix) pairs to a meters multiplier using a fixed
    table"; [None] for a combination that is not in the table. *)
Definition table (name : option string) (prefix : string) : option Q :=
  match name with
  | Some nm =>
      if bool_decide (nm ∈ metre_names) then row_for prefix metre_rows
      else if bool_decide (nm ∈ foot_names) then Some 0.3048%Q
      else None
  | None => None
  end.

(** The length unit of a model: the unit of type LENGTHUNIT of its first
    unit assignment. *)
Definition is_length (u : unit_) : bool :=
  match UnitType u with
  | Val t => String.eqb (upper t) "LENGTHUNIT"
  | IsNone | Missing => false
  end.

Definition length_unit (ifc : model) : option unit_ :=
  match by_type_IfcUnitAssignment ifc with
  | Ok (ua :: _) => List.find is_length (Units ua)
  | Ok [] | Raise => None
  end.

(** "The unit-scale resolver returns exactly the fixed table value, and
    for every unrecognized combination, missing unit assignment, or lookup
    failure it returns 1.0." *)
Definition unitScale (ifc : model) : Q :=
  default 1.0%Q (length_unit ifc ≫= λ u, table (name_text u) (prefix_text u)).

(** ** What the resolver looks at *)





End UnitSpec.

Module MoreUnitExamples.
Import UnitExamples.




(** A length unit in kilometres, followed by one in millimetres. *)
Definition kilometres_then_millimetres : model :=
  with_units [si_length "METRE" (Val "KILO"); si_length "METRE" (Val "MILLI")].



End MoreUnitExamples.

(* ===================================================================== *)
(** * The parking report, as the specification words it *)
(* ===================================================================== *)

Module ParkingReportSpec.
Import ParkingChecker ParkingRows.

(** "Always additionally report shortfallSlots and shortfallArea,
    regardless of pass/fail": the verdict box shows the two figures. *)
Definition shows_shortfalls (m : message) (slots : Z) (area : Q) : Prop :=
  ∃ req raw whole, m = error req raw whole slots area.

(** The area of a space as [area_for_id] computes it, "treating Unknown as
    0". *)
Definition areaOf (lib : geom_backend) (ifc : model) (s : ident) : Q :=
  match area_for_id lib ifc (_detect_length_scale_meters ifc) s with
  | Ok (Some a) => a
  | Ok None | Raise => 0
  end.

(** The spaces matched as parking, in model order. *)
Definition matched (ifc : model) : list ident :=
  filter (λ s, matches_parking (by_id ifc) s = true)
         (try_except (by_type_IfcSpace ifc) []).

Definition Qsum (l : list Q) : Q := foldr Qplus 0%Q l.

(** "totalArea": the sum of the areas of the matched parking spaces. *)
Definition totalArea (lib : geom_backend) (ifc : model) : Q :=
  Qsum (areaOf lib ifc <$> matched ifc).

(** The sum of the areas as the table shows them: each rounded to two
    decimals. *)
Definition totalShown (lib : geom_backend) (ifc : model) : Q :=
  Qsum ((λ s, round2 (areaOf lib ifc s)) <$> matched ifc).

End ParkingReportSpec.

Module MoreParkingExamples.
Import ParkingExamples.

(** Three parking spaces of 7.004, 7.004 and 6.994 square metres, 21.002
    together. *)
Definition three_bays : model :=
  {| by_id := {[ 1 := parking_with_quantity 7.004%Q;
                 2 := parking_with_quantity 7.004%Q;
                 3 := parking_with_quantity 6.994%Q ]};
     by_type_IfcSpace := Ok [1; 2; 3];
     by_type_IfcUnitAssignment := Ok [] |}.

End MoreParkingExamples.

(* ===================================================================== *)
(** * Facts about storey resolution *)
(* ===================================================================== *)

Section HierarchyFacts.
Import Hierarchy.
Variable tbl : gmap ident entity.

Lemma parent_in_dom i p : parent tbl i = Some p → i ∈ dom tbl.
Proof.
  unfold parent, entity_of. intros H. apply elem_of_dom.
  destruct (tbl !! i); [eauto | discriminate].
Qed.

Lemma unseen_shrinks (seen : gset ident) i :
  i ∈ dom tbl → i ∉ seen →
  size (dom tbl ∖ ({[i]} ∪ seen)) < size (dom tbl ∖ seen).
Proof.
  intros Hd Hs. apply subset_size. set_solver.
Qed.

(** The loop finishes as soon as the fuel exceeds the number of entities
    not yet seen. *)
Lemma climb_total fuel : ∀ st seen,
  size (dom tbl ∖ seen) < fuel → ∃ w, climb fuel tbl st seen = Done w.
Proof.
  induction fuel as [|f IH]; intros st seen Hf; [lia|].
  destruct st as [i|]; simpl; [|eauto].
  destruct (decide (i ∈ seen)) as [Hi|Hi]; [eauto|].
  destruct (is_storey tbl i); [eauto|].
  destruct (parent tbl i) as [p|] eqn:Hp.
  - destruct (IH (Some p) ({[i]} ∪ seen)) as [[[r s] n] Hw].
    + pose proof (unseen_shrinks seen i (parent_in_dom _ _ Hp) Hi). lia.
    + rewrite Hw. eauto.
  - destruct f; simpl; eauto.
Qed.

(** More fuel does not change a finished run. *)
Lemma climb_fuel_mono fuel : ∀ fuel' st seen w,
  climb fuel tbl st seen = Done w → fuel ≤ fuel' →
  climb fuel' tbl st seen = Done w.
Proof.
  induction fuel as [|f IH]; intros f' st seen w H Hle.
  - destruct st as [i|]; simpl in H.
    + destruct (decide (i ∈ seen)) as [Hi|Hi]; [|discriminate].
      destruct f'; simpl; destruct (decide (i ∈ seen)); done.
    + destruct f'; done.
  - destruct f' as [|f']; [lia|].
    destruct st as [i|]; simpl in *; [|done].
    destruct (decide (i ∈ seen)); [done|].
    destruct (is_storey tbl i); [done|].
    destruct (climb f tbl (parent tbl i) ({[i]} ∪ seen)) as [w'|] eqn:Hw;
      [|discriminate].
    rewrite (IH f' _ _ _ Hw); [done | lia].
Qed.


Lemma walk_total st : ∃ w, walk tbl st = Done w.
Proof.
  apply climb_total.
  replace (dom tbl ∖ ∅) with (dom tbl) by set_solver.
  rewrite size_dom. lia.
Qed.


Lemma walks_total space : ∃ ws, walks tbl space = Done ws.
Proof.
  unfold walks.
  destruct (head (Decomposes (entity_of tbl space))) as [p|].
  - destruct (walk_total (Some p)) as [[[[t|] s] n] ->]; [eauto|].
    destruct (walk_total (container (entity_of tbl space))) as [w ->]. eauto.
  - destruct (walk_total (container (entity_of tbl space))) as [w ->]. eauto.
Qed.

Lemma storey_search_total space : ∃ r, storey_search tbl space = Done r.
Proof.
  unfold storey_search. destruct (walks_total space) as [ws ->]. eauto.
Qed.

(** ** What a walk returns *)

Lemma nth_ancestor_None k : nth_ancestor tbl None k = None.
Proof. induction k; simpl; auto. Qed.

Lemma behind_chain seen i :
  behind tbl seen (Some i) → i ∈ seen →
  ∀ k j u, j ∈ seen → nth_ancestor tbl (Some j) k = Some u → u ∈ seen.
Proof.
  intros Hb Hi. induction k as [|k IH]; intros j u Hj Hu; simpl in Hu.
  - by injection Hu as <-.
  - destruct (parent tbl j) as [p|] eqn:Hp.
    + apply (IH p); [|done].
      destruct (Hb j Hj) as [_ Hpar].
      destruct (Hpar p Hp) as [?|[= ->]]; done.
    + by rewrite nth_ancestor_None in Hu.
Qed.

Lemma behind_step seen i :
  behind tbl seen (Some i) → is_storey tbl i = false →
  behind tbl ({[i]} ∪ seen) (parent tbl i).
Proof.
  intros Hb Hi s Hs. apply elem_of_union in Hs as [Hs|Hs].
  - apply elem_of_singleton in Hs as ->. split; [done|].
    intros p Hp. right. done.
  - destruct (Hb s Hs) as [Hns Hpar]. split; [done|].
    intros p Hp. left. destruct (Hpar p Hp) as [?|[= ->]]; set_solver.
Qed.

Lemma walk_spec_step i r :
  is_storey tbl i = false →
  walk_spec tbl (parent tbl i) r → walk_spec tbl (Some i) r.
Proof.
  intros Hi. destruct r as [t|]; simpl.
  - intros (k & Hk & Ht & Hbefore). exists (S k). split; [done|].
    split; [done|]. intros [|j] u Hj Hu; simpl in Hu.
    + by injection Hu as <-.
    + apply (Hbefore j); [lia | done].
  - intros Hfree [|k] u Hu; simpl in Hu.
    + by injection Hu as <-.
    + by apply (Hfree k).
Qed.

Lemma climb_sound fuel : ∀ st seen r s n,
  behind tbl seen st →
  climb fuel tbl st seen = Done (r, s, n) → walk_spec tbl st r.
Proof.
  assert (Hexit : ∀ st seen,
    behind tbl seen st →
    match st with Some i => i ∈ seen | None => True end →
    walk_spec tbl st None).
  { intros [i|] seen Hb Hi k u Hu.
    - destruct (Hb u) as [? _]; [|done].
      by apply (behind_chain seen i Hb Hi k i).
    - by rewrite nth_ancestor_None in Hu. }
  induction fuel as [|f IH]; intros st seen r s n Hb H.
  - destruct st as [i|]; simpl in H.
    + destruct (decide (i ∈ seen)); [|discriminate].
      injection H as <- <- <-. by apply (Hexit _ seen).
    + injection H as <- <- <-. by apply (Hexit _ seen).
  - destruct st as [i|]; simpl in H.
    2:{ injection H as <- <- <-. by apply (Hexit _ seen). }
    destruct (decide (i ∈ seen)).
    { injection H as <- <- <-. by apply (Hexit _ seen). }
    destruct (is_storey tbl i) eqn:Hi.
    { injection H as <- <- <-. exists 0. split; [done|]. split; [done|].
      intros; lia. }
    destruct (climb f tbl (parent tbl i) ({[i]} ∪ seen))
      as [[[r' s'] n']|] eqn:Hw; [|discriminate].
    injection H as <- <- <-.
    apply walk_spec_step; [done|].
    eapply IH; [|done]. by apply behind_step.
Qed.

Lemma walk_sound st r s n :
  walk tbl st = Done (r, s, n) → walk_spec tbl st r.
Proof. apply climb_sound. intros x Hx. set_solver. Qed.

(** The first storey on a chain is unique, and there is none on a
    storey-free chain: [walk_spec] determines the result. *)
Lemma first_storey_unique st t t' :
  first_storey tbl st t → first_storey tbl st t' → t = t'.
Proof.
  intros (k & Hk & Ht & Hb) (k' & Hk' & Ht' & Hb').
  destruct (lt_eq_lt_dec k k') as [[Hlt|Heq]|Hlt].
  - rewrite (Hb' k t Hlt Hk) in Ht. discriminate.
  - subst k'. congruence.
  - rewrite (Hb k' t' Hlt Hk') in Ht'. discriminate.
Qed.

Lemma walk_spec_functional st r r' :
  walk_spec tbl st r → walk_spec tbl st r' → r = r'.
Proof.
  destruct r as [t|], r' as [t'|]; simpl; intros H H'.
  - f_equal. by eapply first_storey_unique.
  - destruct H as (k & Hk & Ht & _). rewrite (H' k t Hk) in Ht. discriminate.
  - destruct H' as (k & Hk & Ht & _). rewrite (H k t' Hk) in Ht. discriminate.
  - done.
Qed.

Lemma storey_search_sound space :
  ∃ r, storey_search tbl space = Done r ∧ resolves tbl space r.
Proof.
  unfold storey_search, walks, resolves.
  destruct (head (Decomposes (entity_of tbl space))) as [p|] eqn:Hp.
  - destruct (walk_total (Some p)) as [[[[t|] s] n] Hw]; rewrite Hw.
    + eexists. split; [done|]. left. exists t. split; [done|].
      by apply walk_sound in Hw.
    + destruct (walk_total (container (entity_of tbl space)))
        as [[[r2 s2] n2] Hw2]; rewrite Hw2.
      eexists. split; [done|]. right. simpl.
      split; [by apply walk_sound in Hw | by apply walk_sound in Hw2].
  - destruct (walk_total (container (entity_of tbl space)))
      as [[[r2 s2] n2] Hw2]; rewrite Hw2.
    eexists. split; [done|]. right. simpl.
    split; [|by apply walk_sound in Hw2].
    intros k u Hu. by rewrite nth_ancestor_None in Hu.
Qed.

End HierarchyFacts.

Section HierarchyExamples.
Import Hierarchy Examples.







End HierarchyExamples.

(** ** C3 *)



(* ===================================================================== *)
(** * Facts about storey resolution under object identity *)
(* ===================================================================== *)

Section ObjectIdentityFacts.
Import Hierarchy ObjectIdentity.
Variable tbl : gmap ident entity.
Variable id_ : ids.

Lemma nth_ancestor_S k : ∀ st,
  nth_ancestor tbl st (S k) = nth_ancestor tbl st k ≫= parent tbl.
Proof.
  induction k as [|k IH]; intros st; [done|].
  change (nth_ancestor tbl st (S (S k)))
    with (nth_ancestor tbl (st ≫= parent tbl) (S k)).
  by rewrite IH.
Qed.

Lemma nth_ancestor_None_ge k n st :
  nth_ancestor tbl st k = None → k ≤ n → nth_ancestor tbl st n = None.
Proof.
  intros Hk Hle. induction Hle as [|n Hle IH]; [done|].
  by rewrite nth_ancestor_S, IH.
Qed.


(** ** What a walk returns *)

Variable st0 : option ident.

Lemma at_iteration_start : at_iteration tbl id_ st0 0 st0 ∅.
Proof.
  split; [done|]. split; [intros; lia|]. split; [|intros; lia].
  intros a. split; [set_solver|]. intros (j & Hj & _). lia.
Qed.

Lemma at_iteration_exit k st seen :
  at_iteration tbl id_ st0 k st seen →
  st = None ∨ id_ k ∈ seen →
  ∀ t, ¬ reaches tbl id_ st0 t.
Proof.
  intros (Hst & Hbefore & Hseen & _) Hexit t (n & Hn & Ht & _ & Hfresh).
  destruct (decide (n < k)) as [Hlt|Hge].
  - rewrite (Hbefore n t Hlt Hn) in Ht. discriminate.
  - destruct Hexit as [->|Hin].
    + rewrite (nth_ancestor_None_ge k n) in Hn; [discriminate|done|lia].
    + apply Hseen in Hin as (j & Hj & Heq).
      apply (Hfresh j k); [done|lia|done].
Qed.

Lemma at_iteration_found k i seen :
  at_iteration tbl id_ st0 k (Some i) seen →
  id_ k ∉ seen → is_storey tbl i = true →
  reaches tbl id_ st0 i.
Proof.
  intros (Hst & Hbefore & Hseen & Hdiff) Hnew Hi. exists k.
  split; [done|]. split; [done|]. split; [done|].
  intros j k' Hj Hk'. destruct (decide (k' = k)) as [->|Hne].
  - intros Heq. apply Hnew, Hseen. eauto.
  - apply Hdiff; lia.
Qed.

Lemma at_iteration_step k i seen :
  at_iteration tbl id_ st0 k (Some i) seen →
  id_ k ∉ seen → is_storey tbl i = false →
  at_iteration tbl id_ st0 (S k) (parent tbl i) ({[id_ k]} ∪ seen).
Proof.
  intros (Hst & Hbefore & Hseen & Hdiff) Hnew Hi.
  split; [by rewrite nth_ancestor_S, <- Hst|]. split; [|split].
  - intros j u Hj Hu. destruct (decide (j = k)) as [->|Hne].
    + rewrite <- Hst in Hu. by injection Hu as <-.
    + apply (Hbefore j); [lia|done].
  - intros a. rewrite elem_of_union, elem_of_singleton, Hseen. split.
    + intros [->|(j & Hj & Heq)]; [exists k | exists j]; split; (lia || done).
    + intros (j & Hj & Heq). destruct (decide (j = k)) as [->|Hne];
        [by left | right; exists j; split; [lia|done]].
  - intros a b Hab Hb. destruct (decide (b = k)) as [->|Hne].
    + intros Heq. apply Hnew, Hseen. eauto.
    + apply Hdiff; lia.
Qed.

Lemma climb_id_sound fuel : ∀ k st seen r s n,
  at_iteration tbl id_ st0 k st seen →
  climb fuel tbl id_ k st seen = Done (r, s, n) →
  walk_result tbl id_ st0 r.
Proof.
  induction fuel as [|f IH]; intros k st seen r s n Hinv H.
  - destruct st as [i|]; simpl in H.
    + destruct (decide (id_ k ∈ seen)); [|discriminate].
      injection H as <- <- <-. cbn [walk_result].
      eapply at_iteration_exit; [exact Hinv | auto].
    + injection H as <- <- <-. cbn [walk_result].
      eapply at_iteration_exit; [exact Hinv | auto].
  - destruct st as [i|]; simpl in H.
    2:{ injection H as <- <- <-. cbn [walk_result].
        eapply at_iteration_exit; [exact Hinv | auto]. }
    destruct (decide (id_ k ∈ seen)) as [Hin|Hnew].
    { injection H as <- <- <-. cbn [walk_result].
      eapply at_iteration_exit; [exact Hinv | auto]. }
    destruct (is_storey tbl i) eqn:Hi.
    { injection H as <- <- <-. by apply (at_iteration_found k i seen). }
    destruct (climb f tbl id_ (S k) (parent tbl i) ({[id_ k]} ∪ seen))
      as [[[r' s'] n']|] eqn:Hw; [|discriminate].
    injection H as <- <- <-.
    eapply IH; [|exact Hw]. by apply at_iteration_step.
Qed.

End ObjectIdentityFacts.

Section ObjectIdentityWalks.
Import Hierarchy ObjectIdentity.
Variable tbl : gmap ident entity.

Lemma walk_id_sound id_ fuel st r s n :
  walk fuel tbl id_ st = Done (r, s, n) → walk_result tbl id_ st r.
Proof. apply climb_id_sound, at_iteration_start. Qed.





Lemma _storey_of_space_id_sound fuel id1 id2 space r :
  _storey_of_space fuel tbl id1 id2 space = Done r →
  resolves tbl id1 id2 space r.
Proof.
  unfold _storey_of_space, resolves.
  destruct (head (Decomposes (entity_of tbl space))) as [p|] eqn:Hp.
  - destruct (walk fuel tbl id1 (Some p)) as [[[[t|] s] n]|] eqn:Hw;
      [| |discriminate].
    + intros [= <-]. left. exists t. split; [done|].
      by apply walk_id_sound in Hw.
    + destruct (walk fuel tbl id2 (container (entity_of tbl space)))
        as [[[r2 s2] n2]|] eqn:Hw2; [|discriminate].
      intros [= <-]. right.
      split; [by apply walk_id_sound in Hw | by apply walk_id_sound in Hw2].
  - destruct (walk fuel tbl id2 (container (entity_of tbl space)))
      as [[[r2 s2] n2]|] eqn:Hw2; [|discriminate].
    intros [= <-]. right. split; [|by apply walk_id_sound in Hw2].
    intros t (n & Hn & _). by rewrite nth_ancestor_None in Hn.
Qed.



End ObjectIdentityWalks.

(** ** C4 *)




(** ** C5 *)




(* ===================================================================== *)
(** * Facts about the unit scale *)
(* ===================================================================== *)

Section UnitScaleFacts.
Import ParkingChecker.





End UnitScaleFacts.

Section UnitTable.
Import ParkingChecker.
Variable u : unit_.
Hypothesis Hu : is_length_unit u = true.



End UnitTable.

Section UnitReading.
Import ParkingChecker UnitSpec.















End UnitReading.

(** ** C6 *)


(** A length unit that is not in the table does not give 1.0 when another
    unit follows that is: the resolver goes on to the next unit. *)
Remark unrecognised_length_unit_is_skipped :
  ParkingChecker._detect_length_scale_meters
    MoreUnitExamples.kilometres_then_millimetres = 0.001%Q
  ∧ UnitSpec.unitScale MoreUnitExamples.kilometres_then_millimetres = 1.0%Q.
Proof. split; reflexivity. Qed.



(** The length-unit test looks at the end of the type name only: a derived
    unit typed MASSPERLENGTHUNIT passes it too, and having neither a name
    nor a prefix it then counts as metre without prefix. *)
Remark length_unit_test_matches_suffix :
  let u := {| UnitType := Val "MASSPERLENGTHUNIT"; UnitName := Missing;
              Prefix := Missing |} in
  ParkingChecker.is_length_unit u = true
  ∧ ParkingChecker.unit_scale u = Some 1.0%Q.
Proof. split; reflexivity. Qed.

(* ===================================================================== *)
(** * Facts about the footprint area *)
(* ===================================================================== *)

Section AreaFacts.
Import ParkingChecker.

Lemma usable_Some a : usable (Some a) = true ↔ (0 < a)%Q.
Proof.
  unfold usable, truthy_float, Qltb.
  rewrite andb_true_iff, !negb_true_iff.
  split.
  - intros [_ H]. apply Qnot_le_lt. intros Hle.
    apply Qle_bool_iff in Hle. congruence.
  - intros H. split.
    + destruct (Qeq_bool a 0) eqn:He; [|done].
      apply Qeq_bool_iff in He. rewrite He in H. by apply Qlt_irrefl in H.
    + destruct (Qle_bool a 0) eqn:Hle; [|done].
      apply Qle_bool_iff in Hle. by apply Qle_not_lt in Hle.
Qed.

Lemma usable_positive v a : usable v = true → v = Some a → (0 < a)%Q.
Proof. intros H ->. by apply usable_Some. Qed.

Lemma quantities_loop_positive qs a :
  quantities_loop qs = Some a → (0 < a)%Q.
Proof.
  induction qs as [|qa qs IH]; simpl; [done|].
  destruct (usable (AreaValue qa)) eqn:Hq; [|done].
  intros H. by eapply usable_positive.
Qed.

Lemma relations_loop_positive rels a :
  relations_loop rels = Some a → (0 < a)%Q.
Proof.
  induction rels as [|rel rels IH]; simpl; [done|].
  destruct (RelatingPropertyDefinition rel) as [q|]; [|done].
  destruct (quantities_loop (Quantities q)) as [v|] eqn:Hq; [|done].
  intros [= ->]. by eapply quantities_loop_positive.
Qed.

Lemma _fallback_positive space a :
  _fallback_space_area_m2 space = Some a → (0 < a)%Q.
Proof.
  unfold _fallback_space_area_m2.
  destruct (relations_loop (IsDefinedBy space)) as [v|] eqn:Hr.
  - intros [= ->]. by eapply relations_loop_positive.
  - destruct (usable (Area space)) eqn:Hu; [|done].
    intros H. by eapply usable_positive.
Qed.

Lemma _space_geom_area_m2_returns lib space scale :
  ∃ v, _space_geom_area_m2 lib space scale = Ok v.
Proof.
  unfold _space_geom_area_m2, catch.
  destruct (negb (available lib)); [eauto|].
  destruct (create_shape lib space); eauto.
Qed.

Lemma triangles_loop_length vs scale : ∀ fs tris,
  triangles_loop vs fs scale = Ok tris → 3 * length tris = length fs.
Proof.
  fix IH 1. intros [|i0 [|i1 [|i2 rest]]] tris; simpl;
    [by intros [= <-] | done | done |].
  destruct (vertex vs i0) as [[[x0 y0] z0]|]; [|done].
  destruct (vertex vs i1) as [[[x1 y1] z1]|]; [|done].
  destruct (vertex vs i2) as [[[x2 y2] z2]|]; [|done]. simpl.
  destruct (triangles_loop vs rest scale) as [ts|] eqn:Hts; [|done]. simpl.
  intros [= <-]. apply IH in Hts. simpl. lia.
Qed.

End AreaFacts.

(** ** C1 *)

(** C1, as stated, does not hold: a space whose mesh is one vertical
    triangle has geometric area 0, and when its [Area] attribute is 12.5 the
    reported area is 12.5, not the geometric 0. *)
Lemma C1_zero_geometric_area_is_replaced :
  ¬ ∀ (lib : ParkingChecker.geom_backend) (ifc : model) (scale_m : Q)
      (space_id : ident) (s : entity) (g f : Q),
      by_id ifc !! space_id = Some s →
      ParkingChecker._space_geom_area_m2 lib space_id scale_m = Ok (Some g) →
      ParkingChecker._fallback_space_area_m2 s = Some f →
      ParkingChecker.area_for_id lib ifc scale_m space_id = Ok (Some g).
Proof.
  intros H.
  specialize (H (FootprintExamples.backend FootprintExamples.wall_mesh
                   FootprintExamples.single_polygon_union)
                FootprintExamples.parking_model 1%Q 7
                FootprintExamples.parking_space
                (FootprintExamples.triangle_area ((0, 0), (1, 0), (1, 0))%Q)
                12.5%Q).
  assert (Hgeom : ParkingChecker._space_geom_area_m2
            (FootprintExamples.backend FootprintExamples.wall_mesh
               FootprintExamples.single_polygon_union) 7 1%Q
          = Ok (Some (FootprintExamples.triangle_area ((0, 0), (1, 0), (1, 0))%Q)))
    by (vm_compute; reflexivity).
  specialize (H eq_refl Hgeom eq_refl).
  vm_compute in H. discriminate.
Qed.

(** C1, amended: the geometric area is reported whenever it is strictly
    positive, whatever the fallback would give. A geometric area that is
    zero (or not positive), like a missing one, is replaced by the fallback
    value: the first strictly positive area quantity, else the strictly
    positive [Area] attribute, else unknown. A reported area is therefore
    always strictly positive; [Known(0.0)] is never reported. *)
Theorem C1_geometric_area_when_positive :
  ∀ (lib : ParkingChecker.geom_backend) (ifc : model) (scale_m : Q)
    (space_id : ident) (s : entity) (g : option Q),
    by_id ifc !! space_id = Some s →
    ParkingChecker._space_geom_area_m2 lib space_id scale_m = Ok g →
    (∀ a, g = Some a → (0 < a)%Q →
          ParkingChecker.area_for_id lib ifc scale_m space_id = Ok (Some a))
    ∧ ((g = None ∨ ∃ a, g = Some a ∧ (a <= 0)%Q) →
       ParkingChecker.area_for_id lib ifc scale_m space_id
       = Ok (ParkingChecker._fallback_space_area_m2 s))
    ∧ (∀ a, ParkingChecker.area_for_id lib ifc scale_m space_id = Ok (Some a) →
            (0 < a)%Q).
Proof.
  intros lib ifc scale_m space_id s g Hs Hg.
  unfold ParkingChecker.area_for_id. rewrite Hs, Hg. cbn [bind].
  split; [|split].
  - intros a -> Ha. apply usable_Some in Ha. by rewrite Ha.
  - intros [->|(a & -> & Ha)]; [done|].
    destruct (ParkingChecker.usable (Some a)) eqn:Hu; [|done].
    apply usable_Some in Hu. by apply Qle_not_lt in Ha.
  - intros a. destruct (ParkingChecker.usable g) eqn:Hu.
    + intros [= ->]. by apply usable_Some.
    + intros [= H]. by apply _fallback_positive in H.
Qed.

(** A space with a horizontal triangle of area 6 as its mesh and an [Area]
    attribute of 12.5: the geometric 6 is reported. *)
Lemma C1_geometric_wins_witness :
  ParkingChecker._fallback_space_area_m2 FootprintExamples.parking_space
  = Some 12.5%Q
  ∧ ∃ a, ParkingChecker.area_for_id
           (FootprintExamples.backend FootprintExamples.floor_mesh
              FootprintExamples.single_polygon_union)
           FootprintExamples.parking_model 1%Q 7
         = Ok (Some a)
         ∧ (a == 6)%Q.
Proof.
  split; [reflexivity|].
  exists (FootprintExamples.triangle_area
            ((0 * 1, 0 * 1), (4 * 1, 0 * 1), (0 * 1, 0 * 0 + 3 * 1))%Q).
  split; [|reflexivity].
  refine (proj1 (C1_geometric_area_when_positive
            (FootprintExamples.backend FootprintExamples.floor_mesh
               FootprintExamples.single_polygon_union)
            FootprintExamples.parking_model 1%Q 7
            FootprintExamples.parking_space _ _ _) _ _ _).
  - reflexivity.
  - reflexivity.
  - reflexivity.
  - reflexivity.
Defined.

(** ** C2 *)





(* ===================================================================== *)
(** * Facts about the parking rule *)
(* ===================================================================== *)

Section ParkingFacts.
Import ParkingChecker.

Lemma round_half_even_nonneg x : (0 <= x)%Q → (0 ≤ round_half_even x)%Z.
Proof.
  intros Hx. unfold round_half_even.
  assert (0 ≤ Qfloor x)%Z.
  { change 0%Z with (Qfloor 0). by apply Qfloor_resp_le. }
  repeat (match goal with |- context [if ?b then _ else _] => destruct b end);
    lia.
Qed.

Lemma round2_nonneg x : (0 <= x)%Q → (0 <= round2 x)%Q.
Proof.
  intros Hx. unfold round2.
  assert (0 ≤ round_half_even (x * 100))%Z as Hz.
  { apply round_half_even_nonneg. lra. }
  apply (Qle_shift_div_l 0 _ 100); [reflexivity|].
  rewrite Qmult_0_l. change 0%Q with (inject_Z 0). by rewrite <- Zle_Qle.
Qed.

Lemma area_for_id_positive lib ifc scale_m space_id a :
  area_for_id lib ifc scale_m space_id = Ok (Some a) → (0 < a)%Q.
Proof.
  unfold area_for_id. destruct (by_id ifc !! space_id) as [s|]; [|done].
  destruct (_space_geom_area_m2 lib space_id scale_m) as [g|]; [|done].
  cbn [bind]. destruct (usable g) eqn:Hu.
  - intros [= ->]. by apply usable_Some.
  - intros [= H]. by apply _fallback_positive in H.
Qed.

Lemma area_or_zero_known r :
  (area_or_zero r == ParkingSpec.known_or_zero r)%Q.
Proof.
  unfold area_or_zero, ParkingSpec.known_or_zero, truthy_float.
  destruct (Area_m2 r) as [v|]; [|reflexivity].
  destruct (Qeq_bool v 0) eqn:He; simpl; [|reflexivity].
  apply Qeq_bool_iff in He. by rewrite He.
Qed.

Lemma row_of_nonneg lib ifc scale_m s r :
  row_of lib ifc scale_m s = Ok (Some r) → (0 <= area_or_zero r)%Q.
Proof.
  unfold row_of.
  destruct (_ || _); [|done].
  destruct (area_for_id lib ifc scale_m s) as [a|] eqn:Ha; [|done].
  cbn [bind]. intros [= <-]. rewrite area_or_zero_known.
  unfold ParkingSpec.known_or_zero. cbn [Area_m2].
  destruct a as [v|]; [|done].
  destruct (truthy_float v); [|done].
  apply round2_nonneg, Qlt_le_weak. by eapply area_for_id_positive.
Qed.

Lemma collect_rows_nonneg lib ifc scale_m : ∀ spaces rs,
  collect_rows lib ifc scale_m spaces = Ok rs →
  Forall (λ r, (0 <= area_or_zero r)%Q) rs.
Proof.
  induction spaces as [|s spaces IH]; intros rs; simpl.
  - by intros [= <-].
  - destruct (row_of lib ifc scale_m s) as [r|] eqn:Hr; [|done]. cbn [bind].
    destruct (collect_rows lib ifc scale_m spaces) as [rs'|]; [|done].
    cbn [bind]. intros [= <-]. specialize (IH rs' eq_refl).
    destruct r as [r|]; [|done]. constructor; [|done].
    by eapply row_of_nonneg.
Qed.

Lemma sum_areas_from acc rs :
  (foldl (λ acc r, acc + area_or_zero r) acc rs
   == acc + ParkingSpec.totalArea rs)%Q.
Proof.
  revert acc. induction rs as [|r rs IH]; intros acc; simpl.
  - lra.
  - rewrite IH, area_or_zero_known. lra.
Qed.

Lemma sum_areas_totalArea rs : (sum_areas rs == ParkingSpec.totalArea rs)%Q.
Proof. unfold sum_areas. rewrite sum_areas_from. lra. Qed.

Lemma totalArea_nonneg rs :
  Forall (λ r, (0 <= area_or_zero r)%Q) rs → (0 <= ParkingSpec.totalArea rs)%Q.
Proof.
  induction 1 as [|r rs Hr _ IH]; simpl; [done|].
  rewrite area_or_zero_known in Hr. lra.
Qed.

Lemma REQ_PER_STAFF_third : (REQ_PER_STAFF == 1 # 3)%Q.
Proof. reflexivity. Qed.

Lemma SLOT_AREA_21 : (SLOT_AREA == 21)%Q.
Proof. reflexivity. Qed.

(** The verdict on a total that is not negative. *)
Lemma verdict_formulas rs staff_count :
  (0 <= sum_areas rs)%Q →
  let rep := verdict rs staff_count in
  req_slots rep = Qceiling (inject_Z staff_count * (1 # 3))
  ∧ (slots_raw rep == total_area rep / 21)%Q
  ∧ (ok rep = true ↔ (inject_Z (req_slots rep) <= slots_raw rep)%Q)
  ∧ slots_int rep = Qfloor (slots_raw rep)
  ∧ short_slots rep = Z.max 0 (req_slots rep - slots_int rep)
  ∧ (short_area rep
     == Qmax 0 (inject_Z (req_slots rep) * 21 - total_area rep))%Q.
Proof.
  intros Hnn. cbn [verdict req_slots slots_raw ok slots_int short_slots
                   short_area total_area].
  split; [|split; [|split; [|split; [|split]]]].
  - apply Qceiling_comp. by rewrite REQ_PER_STAFF_third.
  - unfold Qltb. destruct (Qle_bool (sum_areas rs) 0) eqn:Hle; cbn [negb].
    + apply Qle_bool_iff in Hle.
      assert (sum_areas rs == 0)%Q as -> by lra. reflexivity.
    + by rewrite SLOT_AREA_21.
  - apply Qle_bool_iff.
  - reflexivity.
  - reflexivity.
  - apply Q.max_compat; [reflexivity|]. by rewrite SLOT_AREA_21.
Qed.

Lemma verdict_total rs staff_count :
  total_area (verdict rs staff_count) = sum_areas rs.
Proof. reflexivity. Qed.

End ParkingFacts.

Section TotalFacts.
Import ParkingChecker ParkingRows ParkingReportSpec.

Lemma round2_zero : (round2 0 == 0)%Q.
Proof. reflexivity. Qed.

Lemma Qsum_cons x l : Qsum (x :: l) = (x + Qsum l)%Q.
Proof. reflexivity. Qed.

Lemma sum_areas_cons r rs :
  (sum_areas (r :: rs) == area_or_zero r + sum_areas rs)%Q.
Proof. rewrite !sum_areas_totalArea. simpl. by rewrite area_or_zero_known. Qed.

(** The area a row contributes to the total: the area computed for its
    space, rounded to two decimals; nothing when no area was found. *)
Lemma row_of_area lib ifc scale_m s r :
  row_of lib ifc scale_m s = Ok (Some r) →
  (area_or_zero r
   == round2 match area_for_id lib ifc scale_m s with
             | Ok (Some a) => a
             | Ok None | Raise => 0
             end)%Q.
Proof.
  unfold row_of. destruct (_ || _); [|done].
  destruct (area_for_id lib ifc scale_m s) as [a|] eqn:Ha; [|done].
  cbn [bind]. intros [= <-]. rewrite area_or_zero_known.
  unfold ParkingSpec.known_or_zero. cbn [Area_m2].
  destruct a as [v|]; [|by rewrite round2_zero].
  apply area_for_id_positive in Ha.
  unfold truthy_float. destruct (Qeq_bool v 0) eqn:He; [|reflexivity].
  apply Qeq_bool_iff in He. rewrite He in Ha. by apply Qlt_irrefl in Ha.
Qed.

Lemma collect_rows_total lib ifc scale_m : ∀ spaces rs,
  collect_rows lib ifc scale_m spaces = Ok rs →
  (sum_areas rs
   == Qsum ((λ s, round2 match area_for_id lib ifc scale_m s with
                         | Ok (Some a) => a
                         | Ok None | Raise => 0
                         end)
            <$> filter (λ s, matches_parking (by_id ifc) s = true) spaces))%Q.
Proof.
  induction spaces as [|s spaces IH]; intros rs; simpl.
  - by intros [= <-].
  - destruct (row_of lib ifc scale_m s) as [r|] eqn:Hr; [|done]. cbn [bind].
    destruct (collect_rows lib ifc scale_m spaces) as [rs'|]; [|done].
    cbn [bind]. intros [= <-]. specialize (IH rs' eq_refl).
    rewrite filter_cons.
    assert (Hm : matches_parking (by_id ifc) s = true ↔ is_Some r).
    { unfold row_of in Hr. unfold matches_parking.
      destruct (_ || _).
      - destruct (area_for_id lib ifc scale_m s); [|done].
        cbn [bind] in Hr. injection Hr as <-. split; [by eexists | done].
      - injection Hr as <-. split; [done | by intros [? ?]]. }
    destruct r as [r|].
    + rewrite decide_True by (apply Hm; by eexists).
      rewrite fmap_cons, Qsum_cons, sum_areas_cons, IH.
      by rewrite (row_of_area _ _ _ _ _ Hr).
    + rewrite decide_False; [done|]. intros H. apply Hm in H as [? ?]. done.
Qed.

End TotalFacts.

(** ** C7 *)

(** C7, as stated, does not hold, in two respects. The shortfalls are not
    reported regardless of the verdict: two parking spaces of 20.5 square
    metres pass for a staff of 3, and the verdict box then shows neither
    shortfall. And the total is not the sum of the areas of the parking
    spaces: for three spaces of 7.004, 7.004 and 6.994 square metres it is
    the sum of 7.0, 7.0 and 6.99, the areas as rounded for the table. *)
Lemma C7_shortfalls_hidden_and_areas_rounded :
  (¬ ∀ (lib : ParkingChecker.geom_backend) (ifc : model) (staff_count : Z)
       (rep : ParkingChecker.report),
       ParkingChecker.render_parking_checker lib ifc staff_count
       = Ok (Some rep) →
       ParkingReportSpec.shows_shortfalls
         (ParkingChecker.shown rep) (ParkingChecker.short_slots rep)
         (ParkingChecker.short_area rep))
  ∧ (¬ ∀ (lib : ParkingChecker.geom_backend) (ifc : model) (staff_count : Z)
         (rep : ParkingChecker.report),
         ParkingChecker.render_parking_checker lib ifc staff_count
         = Ok (Some rep) →
         (ParkingChecker.total_area rep
          == ParkingReportSpec.totalArea lib ifc)%Q).
Proof.
  split; intros H.
  - destruct (ParkingChecker.render_parking_checker
                ParkingExamples.no_geometry ParkingExamples.car_park 3%Z)
      as [[rep|]|] eqn:Hrep; [|discriminate Hrep..].
    destruct (H _ _ _ _ Hrep) as (req & raw & whole & Hshown).
    vm_compute in Hrep. injection Hrep as <-. discriminate Hshown.
  - destruct (ParkingChecker.render_parking_checker
                ParkingExamples.no_geometry MoreParkingExamples.three_bays 3%Z)
      as [[rep|]|] eqn:Hrep; [|discriminate Hrep..].
    specialize (H _ _ _ _ Hrep).
    vm_compute in Hrep. injection Hrep as <-.
    vm_compute in H. discriminate H.
Qed.

(** The rounding can decide the verdict: the three spaces, of more than 21
    square metres together, are enough for the one slot a staff of 3
    requires, and the checker, adding up less than 21, reports a failure. *)
Remark rounded_areas_fail_a_sufficient_car_park :
  ∃ rep,
    ParkingChecker.render_parking_checker
      ParkingExamples.no_geometry MoreParkingExamples.three_bays 3%Z
    = Ok (Some rep)
    ∧ ParkingChecker.req_slots rep = 1%Z
    ∧ (21 <= ParkingReportSpec.totalArea
               ParkingExamples.no_geometry MoreParkingExamples.three_bays)%Q
    ∧ (ParkingChecker.total_area rep < 21)%Q
    ∧ ParkingChecker.ok rep = false.
Proof. eexists. split; [reflexivity|]. by vm_compute. Qed.

(** C7, amended: on the report of the parking checker, for every staff
    count, the total area is the sum over the matched parking spaces of
    the area computed for the space rounded to two decimals, a space
    without an area counting 0 (it is the sum of the areas the rows show);
    the required slots are the ceiling of a third of the staff count; the
    continuous slots are the total area divided by 21; the rule passes
    exactly when the continuous slots reach the required slots; the usable
    whole slots are the floor of the continuous slots; the shortfalls are
    max(0, required - usable) slots and max(0, required * 21 - total)
    square metres. All of these are computed on every run, but the two
    shortfalls are shown only when the rule fails: the success message
    gives the required, continuous and usable slots and the total area, and
    both shortfalls are 0 then. With a total of 41 and 3 required slots
    the rule fails with a shortfall of 2 slots and 22 square metres.
    Arithmetic is that of the rationals. *)
Theorem C7_parking_rule :
  (∀ (lib : ParkingChecker.geom_backend) (ifc : model) (staff_count : Z)
     (rep : ParkingChecker.report),
     ParkingChecker.render_parking_checker lib ifc staff_count = Ok (Some rep) →
     (ParkingChecker.total_area rep
      == ParkingReportSpec.totalShown lib ifc)%Q
     ∧ (ParkingChecker.total_area rep
        == ParkingSpec.totalArea (ParkingChecker.rows rep))%Q
     ∧ ParkingChecker.req_slots rep
       = Qceiling (inject_Z staff_count * (1 # 3))
     ∧ (ParkingChecker.slots_raw rep == ParkingChecker.total_area rep / 21)%Q
     ∧ (ParkingChecker.ok rep = true ↔
        (inject_Z (ParkingChecker.req_slots rep)
         <= ParkingChecker.slots_raw rep)%Q)
     ∧ ParkingChecker.slots_int rep = Qfloor (ParkingChecker.slots_raw rep)
     ∧ ParkingChecker.short_slots rep
       = Z.max 0 (ParkingChecker.req_slots rep - ParkingChecker.slots_int rep)
     ∧ (ParkingChecker.short_area rep
        == Qmax 0 (inject_Z (ParkingChecker.req_slots rep) * 21
                   - ParkingChecker.total_area rep))%Q
     ∧ (ParkingChecker.ok rep = true →
        ParkingChecker.short_slots rep = 0%Z
        ∧ (ParkingChecker.short_area rep == 0)%Q)
     ∧ ParkingChecker.shown rep
       = (if ParkingChecker.ok rep
          then ParkingChecker.success
                 (ParkingChecker.req_slots rep) (ParkingChecker.slots_raw rep)
                 (ParkingChecker.slots_int rep) (ParkingChecker.total_area rep)
          else ParkingChecker.error
                 (ParkingChecker.req_slots rep) (ParkingChecker.slots_raw rep)
                 (ParkingChecker.slots_int rep) (ParkingChecker.short_slots rep)
                 (ParkingChecker.short_area rep))
     ∧ (ParkingChecker.ok rep = false ↔
        ParkingReportSpec.shows_shortfalls
          (ParkingChecker.shown rep) (ParkingChecker.short_slots rep)
          (ParkingChecker.short_area rep)))
  ∧ (∀ (rs : list ParkingChecker.row) (staff_count : Z),
       (ParkingChecker.sum_areas rs == 41)%Q →
       ParkingChecker.req_slots (ParkingChecker.verdict rs staff_count) = 3%Z →
       ParkingChecker.ok (ParkingChecker.verdict rs staff_count) = false
       ∧ ParkingChecker.short_slots (ParkingChecker.verdict rs staff_count) = 2%Z
       ∧ (ParkingChecker.short_area (ParkingChecker.verdict rs staff_count)
          == 22)%Q).
Proof.
  split.
  - intros lib ifc staff_count rep.
    unfold ParkingChecker.render_parking_checker.
    unfold ParkingReportSpec.totalShown, ParkingReportSpec.matched,
      ParkingReportSpec.areaOf.
    destruct (by_type_IfcSpace ifc) as [spaces|]; [|done].
    cbn [bind try_except].
    destruct spaces as [|s spaces]; [done|].
    destruct (ParkingChecker.collect_rows lib ifc _ (s :: spaces))
      as [rs|] eqn:Hrs; [|done].
    cbn [bind]. intros [= <-].
    pose proof (collect_rows_total _ _ _ _ _ Hrs) as Hshown.
    apply collect_rows_nonneg in Hrs.
    assert (Hnn : (0 <= ParkingChecker.sum_areas rs)%Q).
    { rewrite sum_areas_totalArea. by apply totalArea_nonneg. }
    destruct (verdict_formulas rs staff_count Hnn)
      as (Hreq & Hraw & Hok & Hint & Hss & Hsa).
    split; [exact Hshown|].
    split; [apply sum_areas_totalArea|].
    do 6 (split; [done|]).
    split; [|split; [reflexivity|]].
    + intros Hpass. apply Hok in Hpass.
      assert (ParkingChecker.req_slots (ParkingChecker.verdict rs staff_count)
              ≤ ParkingChecker.slots_int
                  (ParkingChecker.verdict rs staff_count))%Z.
      { rewrite Hint, <- (Qfloor_Z (ParkingChecker.req_slots _)).
        by apply Qfloor_resp_le. }
      split; [lia|].
      rewrite Hsa. apply Q.max_l. rewrite Hraw in Hpass.
      apply (Qmult_le_compat_r _ _ 21) in Hpass; [|done].
      assert (ParkingChecker.total_area (ParkingChecker.verdict rs staff_count)
                / 21 * 21
              == ParkingChecker.total_area
                   (ParkingChecker.verdict rs staff_count))%Q
        as Hdiv by (field; discriminate).
      rewrite Hdiv in Hpass. lra.
    + cbn [ParkingChecker.shown ParkingChecker.verdict].
      unfold ParkingReportSpec.shows_shortfalls.
      destruct (ParkingChecker.ok (ParkingChecker.verdict rs staff_count))
        eqn:Hv; cbn [ParkingChecker.ok ParkingChecker.verdict] in Hv;
        rewrite Hv; split; [done | | by eauto | done].
      intros (? & ? & ? & ?). discriminate.
  - intros rs staff_count Htot Hreq3.
    assert (Hnn : (0 <= ParkingChecker.sum_areas rs)%Q) by (rewrite Htot; done).
    destruct (verdict_formulas rs staff_count Hnn)
      as (_ & Hraw & Hok & Hint & Hss & Hsa).
    rewrite verdict_total, Htot in Hraw, Hsa.
    rewrite Hreq3 in Hok, Hss, Hsa.
    assert (ParkingChecker.slots_int (ParkingChecker.verdict rs staff_count)
            = 1%Z) as Hint1.
    { rewrite Hint, (Qfloor_comp _ _ Hraw). reflexivity. }
    split; [|split].
    + destruct (ParkingChecker.ok _); [|done].
      destruct Hok as [Hok _]. specialize (Hok eq_refl).
      rewrite Hraw in Hok. by apply Qle_not_lt in Hok.
    + rewrite Hss, Hint1. reflexivity.
    + rewrite Hsa. reflexivity.
Qed.

(** Two parking spaces of 20.5 square metres and a staff of 9: the total is
    41, 3 slots are required, and the rule fails, 2 slots and 22 square
    metres short. *)
Lemma C7_car_park_witness :
  ∃ rep,
    ParkingChecker.render_parking_checker
      ParkingExamples.no_geometry ParkingExamples.car_park 9%Z = Ok (Some rep)
    ∧ (ParkingChecker.total_area rep == 41)%Q
    ∧ ParkingChecker.req_slots rep = 3%Z
    ∧ ParkingChecker.ok rep = false
    ∧ ParkingChecker.short_slots rep = 2%Z
    ∧ (ParkingChecker.short_area rep == 22)%Q.
Proof.
  destruct (ParkingChecker.render_parking_checker
              ParkingExamples.no_geometry ParkingExamples.car_park 9%Z)
    as [[rep|]|] eqn:Hrep; [|discriminate Hrep..].
  exists rep. split; [reflexivity|].
  destruct (proj1 C7_parking_rule _ _ _ _ Hrep) as (_ & Htot & Hreq & _).
  assert (Hrs : rep = ParkingChecker.verdict (ParkingChecker.rows rep) 9%Z).
  { vm_compute in Hrep. injection Hrep as <-. vm_compute. reflexivity. }
  assert (H41 : (ParkingChecker.total_area rep == 41)%Q).
  { vm_compute in Hrep. injection Hrep as <-. reflexivity. }
  split; [exact H41|]. split; [rewrite Hreq; reflexivity|].
  rewrite Hrs.
  apply (proj2 C7_parking_rule (ParkingChecker.rows rep) 9%Z).
  - rewrite Hrs in H41. exact H41.
  - rewrite <- Hrs, Hreq. reflexivity.
Defined.

(* ===================================================================== *)
(** * Facts about the floor-distribution rule *)
(* ===================================================================== *)

Section FloorsFacts.
Import FloorsChecker.
Variable tbl : gmap ident entity.

Lemma collect_spec : ∀ spaces_all recs names,
  collect tbl spaces_all recs names =
    (recs ++ (record_of tbl <$> filter (λ sp, is_classroom_space tbl sp) spaces_all),
     list_to_set (Storey <$>
       (record_of tbl <$> filter (λ sp, is_classroom_space tbl sp) spaces_all))
     ∪ names).
Proof.
  induction spaces_all as [|sp rest IH]; intros recs names; simpl.
  - rewrite app_nil_r. f_equal. set_solver.
  - rewrite filter_cons. destruct (is_classroom_space tbl sp) eqn:Hc; simpl.
    + rewrite IH, <- app_assoc. simpl. f_equal.
      change (Storey (record_of tbl sp)) with (storey_name_of tbl sp).
      apply set_eq. intros x. rewrite !elem_of_union. tauto.
    + apply IH.
Qed.

Lemma size_names (l : list string) :
  size (list_to_set l : gset string) = length (remove_dups l).
Proof.
  assert ((list_to_set l : gset string) = list_to_set (remove_dups l)) as ->.
  { apply set_eq. intros x.
    by rewrite !elem_of_list_to_set, elem_of_remove_dups. }
  apply size_list_to_set, NoDup_remove_dups.
Qed.

Lemma length_levels (names : gset string) :
  length (merge_sort lower_le (elements names)) = size names.
Proof. by rewrite merge_sort_Permutation. Qed.

Lemma size_with_placeholder (l : list string) (ph : string) :
  ph ∈ l →
  size (list_to_set l : gset string)
  = S (length (remove_dups (filter (λ s, s ≠ ph) l))).
Proof.
  intros Hin. rewrite <- size_names.
  assert ((list_to_set l : gset string)
          = {[ph]} ∪ list_to_set (filter (λ s, s ≠ ph) l)) as ->.
  { apply set_eq. intros x. rewrite elem_of_union, elem_of_singleton,
      !elem_of_list_to_set, list_elem_of_filter.
    destruct (decide (x = ph)) as [->|]; naive_solver. }
  rewrite size_union, size_singleton; [done|].
  intros x. rewrite elem_of_singleton, elem_of_list_to_set,
    list_elem_of_filter. naive_solver.
Qed.

End FloorsFacts.

Lemma render_floors_inv ifc max_allowed rep :
  FloorsChecker.render_floors_with_classrooms ifc max_allowed = Some rep →
  ∃ spaces_all,
    by_type_IfcSpace ifc = Ok spaces_all
    ∧ FloorsChecker.records rep
      = FloorsChecker.record_of (by_id ifc)
          <$> filter (λ sp, FloorsChecker.is_classroom_space (by_id ifc) sp)
                     spaces_all
    ∧ FloorsChecker.levels rep
      = merge_sort FloorsChecker.lower_le
          (elements (list_to_set (FloorsChecker.Storey
                                    <$> FloorsChecker.records rep) : gset string))
    ∧ FloorsChecker.count_levels rep
      = Z.of_nat (length (FloorsChecker.levels rep))
    ∧ FloorsChecker.outcome rep
      = if (FloorsChecker.count_levels rep <=? max_allowed)%Z
        then FloorsChecker.Standard (FloorsChecker.count_levels rep) max_allowed
        else FloorsChecker.Exceeds
               (FloorsChecker.count_levels rep - max_allowed)
               (FloorsChecker.count_levels rep) max_allowed.
Proof.
  unfold FloorsChecker.render_floors_with_classrooms.
  destruct (by_type_IfcSpace ifc) as [spaces_all|]; [|done].
  rewrite collect_spec. intros [= <-]. exists spaces_all.
  cbn [FloorsChecker.records FloorsChecker.levels FloorsChecker.count_levels
       FloorsChecker.outcome app].
  replace (list_to_set _ ∪ ∅ : gset string) with
    (list_to_set (FloorsChecker.Storey <$>
       (FloorsChecker.record_of (by_id ifc) <$>
          filter (λ sp, FloorsChecker.is_classroom_space (by_id ifc) sp)
                 spaces_all)) : gset string)
    by (apply set_eq; intros x; rewrite elem_of_union, elem_of_empty; tauto).
  done.
Qed.

Lemma count_levels_distinct ifc max_allowed rep :
  FloorsChecker.render_floors_with_classrooms ifc max_allowed = Some rep →
  FloorsChecker.count_levels rep
  = RuleSpec.distinct_storeys (FloorsChecker.records rep).
Proof.
  intros H. apply render_floors_inv in H as (_ & _ & _ & Hl & Hc & _).
  rewrite Hc, Hl, length_levels, size_names. done.
Qed.

(** The verdict in terms of the distinct storey names. *)
Lemma floor_verdict_by_distinct_storeys ifc max_allowed rep :
  FloorsChecker.render_floors_with_classrooms ifc max_allowed = Some rep →
  FloorsChecker.count_levels rep
  = RuleSpec.distinct_storeys (FloorsChecker.records rep)
  ∧ ((RuleSpec.distinct_storeys (FloorsChecker.records rep) ≤ max_allowed)%Z →
     FloorsChecker.outcome rep
     = FloorsChecker.Standard
         (RuleSpec.distinct_storeys (FloorsChecker.records rep)) max_allowed)
  ∧ ((max_allowed < RuleSpec.distinct_storeys (FloorsChecker.records rep))%Z →
     FloorsChecker.outcome rep
     = FloorsChecker.Exceeds
         (RuleSpec.distinct_storeys (FloorsChecker.records rep) - max_allowed)
         (RuleSpec.distinct_storeys (FloorsChecker.records rep)) max_allowed).
Proof.
  intros H.
  pose proof (count_levels_distinct _ _ _ H) as Hc.
  apply render_floors_inv in H as (_ & _ & _ & _ & _ & Ho).
  rewrite Hc in Ho. split; [done|]. rewrite Ho. split; intros Hle.
  - by rewrite (proj2 (Z.leb_le _ _) Hle).
  - by rewrite (proj2 (Z.leb_gt _ _) Hle).
Qed.

(** ** C8 *)

(** C8: the floor-distribution rule works on the records of the classroom
    spaces of the model; it passes exactly when the number of distinct
    storey names among these records is at most the limit entered, and on
    failure it reports the excess, that number minus the limit. *)
Theorem C8_floor_distribution :
  ∀ (ifc : model) (max_allowed : Z) (rep : FloorsChecker.report),
    FloorsChecker.render_floors_with_classrooms ifc max_allowed = Some rep →
    (∃ spaces_all,
       by_type_IfcSpace ifc = Ok spaces_all
       ∧ FloorsChecker.records rep
         = FloorsChecker.record_of (by_id ifc)
             <$> filter (λ sp, FloorsChecker.is_classroom_space (by_id ifc) sp)
                        spaces_all)
    ∧ FloorsChecker.count_levels rep
      = RuleSpec.distinct_storeys (FloorsChecker.records rep)
    ∧ ((RuleSpec.distinct_storeys (FloorsChecker.records rep) ≤ max_allowed)%Z →
       FloorsChecker.outcome rep
       = FloorsChecker.Standard
           (RuleSpec.distinct_storeys (FloorsChecker.records rep)) max_allowed)
    ∧ ((max_allowed < RuleSpec.distinct_storeys (FloorsChecker.records rep))%Z →
       FloorsChecker.outcome rep
       = FloorsChecker.Exceeds
           (RuleSpec.distinct_storeys (FloorsChecker.records rep) - max_allowed)
           (RuleSpec.distinct_storeys (FloorsChecker.records rep)) max_allowed).
Proof.
  intros ifc max_allowed rep H. split.
  - apply render_floors_inv in H as (spaces_all & Hsp & Hrec & _). eauto.
  - exact (floor_verdict_by_distinct_storeys ifc max_allowed rep H).
Qed.

(** Classrooms on four storeys with a limit of three: the rule fails with
    an excess of one. *)
Lemma C8_four_levels_witness :
  ∃ rep,
    FloorsChecker.render_floors_with_classrooms SchoolExamples.four_levels 3
    = Some rep
    ∧ RuleSpec.distinct_storeys (FloorsChecker.records rep) = 4%Z
    ∧ FloorsChecker.outcome rep = FloorsChecker.Exceeds 1 4 3.
Proof.
  destruct (FloorsChecker.render_floors_with_classrooms
              SchoolExamples.four_levels 3) as [rep|] eqn:Hrep;
    [|vm_compute in Hrep; discriminate Hrep].
  exists rep. split; [reflexivity|].
  assert (H4 : RuleSpec.distinct_storeys (FloorsChecker.records rep) = 4%Z).
  { vm_compute in Hrep. injection Hrep as <-. vm_compute. reflexivity. }
  split; [exact H4|].
  destruct (C8_floor_distribution _ _ _ Hrep) as (_ & _ & _ & Hfail).
  rewrite H4 in Hfail. apply Hfail. lia.
Defined.

(** ** C10 *)

(** C10: when the storey of at least one classroom space cannot be
    resolved, the placeholder "(No storey)" is among the levels and counts
    as one level on top of the distinct storey names proper; so a model
    whose named storeys are within the limit fails the rule, by one, as soon
    as the placeholder takes it over the limit. *)
Theorem C10_unresolved_storey_counts_as_level :
  ∀ (ifc : model) (max_allowed : Z) (rep : FloorsChecker.report)
    (spaces_all : list ident) (sp : ident),
    FloorsChecker.render_floors_with_classrooms ifc max_allowed = Some rep →
    by_type_IfcSpace ifc = Ok spaces_all →
    sp ∈ spaces_all →
    FloorsChecker.is_classroom_space (by_id ifc) sp = true →
    FloorsChecker._storey_of_space (by_id ifc) sp = None →
    "(No storey)" ∈ FloorsChecker.levels rep
    ∧ FloorsChecker.count_levels rep
      = (RuleSpec.distinct_named_storeys (FloorsChecker.records rep) + 1)%Z
    ∧ (RuleSpec.distinct_named_storeys (FloorsChecker.records rep) = max_allowed →
       FloorsChecker.outcome rep
       = FloorsChecker.Exceeds 1 (max_allowed + 1) max_allowed).
Proof.
  intros ifc max_allowed rep spaces_all sp H Hsp Hin Hcls Hsto.
  pose proof (count_levels_distinct _ _ _ H) as Hc.
  pose proof (proj2 (proj2 (floor_verdict_by_distinct_storeys ifc max_allowed rep H)))
    as Hfail.
  apply render_floors_inv in H as (spaces' & Hsp' & Hrec & Hlev & _ & _).
  rewrite Hsp in Hsp'. injection Hsp' as <-.
  assert (Hph : "(No storey)" ∈ FloorsChecker.Storey <$> FloorsChecker.records rep).
  { rewrite Hrec. apply list_elem_of_fmap.
    exists (FloorsChecker.record_of (by_id ifc) sp). split.
    - cbn [FloorsChecker.record_of FloorsChecker.Storey].
      unfold FloorsChecker.storey_name_of. by rewrite Hsto.
    - apply list_elem_of_fmap. exists sp. split; [done|].
      apply list_elem_of_filter. split; [by rewrite Hcls | done]. }
  assert (Hcount : FloorsChecker.count_levels rep
    = (RuleSpec.distinct_named_storeys (FloorsChecker.records rep) + 1)%Z).
  { rewrite Hc. unfold RuleSpec.distinct_storeys, RuleSpec.distinct_named_storeys.
    rewrite <- size_names, (size_with_placeholder _ _ Hph). lia. }
  split; [|split; [done|]].
  - rewrite Hlev, merge_sort_Permutation, elem_of_elements.
    by apply elem_of_list_to_set.
  - intros Hmax. rewrite <- Hc, Hcount, Hmax in Hfail.
    rewrite Hfail by lia. f_equal. lia.
Qed.

(** Classrooms on three storeys and a limit of three: the rule passes. With
    one more classroom that is part of no storey, the placeholder is the
    fourth level and the rule fails by one. *)
Lemma C10_stray_classroom_witness :
  (∃ rep0,
     FloorsChecker.render_floors_with_classrooms SchoolExamples.three_levels 3
     = Some rep0
     ∧ FloorsChecker.outcome rep0 = FloorsChecker.Standard 3 3)
  ∧ ∃ rep,
      FloorsChecker.render_floors_with_classrooms
        SchoolExamples.three_levels_and_a_stray 3 = Some rep
      ∧ "(No storey)" ∈ FloorsChecker.levels rep
      ∧ FloorsChecker.outcome rep = FloorsChecker.Exceeds 1 4 3.
Proof.
  split.
  - eexists. split; vm_compute; reflexivity.
  - destruct (FloorsChecker.render_floors_with_classrooms
                SchoolExamples.three_levels_and_a_stray 3) as [rep|] eqn:Hrep;
      [|vm_compute in Hrep; discriminate Hrep].
    exists rep. split; [reflexivity|].
    assert (H3 : RuleSpec.distinct_named_storeys (FloorsChecker.records rep)
                 = 3%Z).
    { vm_compute in Hrep. injection Hrep as <-. vm_compute. reflexivity. }
    destruct (C10_unresolved_storey_counts_as_level
                SchoolExamples.three_levels_and_a_stray 3 rep [1; 2; 3; 4] 4
                Hrep eq_refl) as (Hin & _ & Hfail).
    + set_solver.
    + vm_compute. reflexivity.
    + vm_compute. reflexivity.
    + split; [exact Hin|]. exact (Hfail H3).
Defined.

(* ===================================================================== *)
(** * Facts about the classroom-count rule *)
(* ===================================================================== *)

Lemma count_if_length {A} (p : A → bool) (xs : list A) : ∀ acc,
  foldl (λ acc x, if p x then (acc + 1)%Z else acc) acc xs
  = (acc + Z.of_nat (length (filter (λ x, p x = true) xs)))%Z.
Proof.
  induction xs as [|x xs IH]; intros acc; simpl; [lia|].
  rewrite IH, filter_cons.
  destruct (p x); case_decide; try done; simpl; lia.
Qed.

Lemma _count_classrooms_classified ifc :
  ClassCountChecker._count_classrooms ifc = RuleSpec.classified_as_classroom ifc.
Proof.
  unfold ClassCountChecker._count_classrooms, ClassCountChecker.count_if,
    RuleSpec.classified_as_classroom.
  by rewrite count_if_length.
Qed.

Lemma Z_in_spec x l : ClassCountChecker.Z_in x l = true ↔ x ∈ l.
Proof.
  unfold ClassCountChecker.Z_in. rewrite existsb_exists. split.
  - intros (y & Hy & Hxy). apply Z.eqb_eq in Hxy as ->.
    by apply list_elem_of_In.
  - intros H. exists x. split; [by apply list_elem_of_In | apply Z.eqb_refl].
Qed.

(** ** C9 *)

(** C9: for every model and every school type of the table, the
    classroom-count rule counts the spaces classified as classroom and
    passes exactly when that count is in the permitted set of the school
    type ({6, 9, 12, 15} for the types 1 and 2, {6, 12, 18} for type 3); on
    failure it reports the whole permitted set. *)
Theorem C9_classroom_count :
  ∀ (ifc : model) (sel_key : string) (ty : ClassCountChecker.school_type),
    ClassCountChecker.getitem ClassCountChecker.SCHOOL_TYPES sel_key = Ok ty →
    ClassCountChecker._count_classrooms ifc = RuleSpec.classified_as_classroom ifc
    ∧ (sel_key = "1" ∧ ClassCountChecker.valid_counts ty = [6; 9; 12; 15]%Z
       ∨ sel_key = "2" ∧ ClassCountChecker.valid_counts ty = [6; 9; 12; 15]%Z
       ∨ sel_key = "3" ∧ ClassCountChecker.valid_counts ty = [6; 12; 18]%Z)
    ∧ (RuleSpec.classified_as_classroom ifc ∈ ClassCountChecker.valid_counts ty →
       ClassCountChecker.render_class_count_checker (Some ifc) sel_key
       = Ok (Some (ClassCountChecker.result_ok
                     (RuleSpec.classified_as_classroom ifc)
                     (ClassCountChecker.label ty))))
    ∧ (RuleSpec.classified_as_classroom ifc ∉ ClassCountChecker.valid_counts ty →
       ClassCountChecker.render_class_count_checker (Some ifc) sel_key
       = Ok (Some (ClassCountChecker.result_not_ok
                     (RuleSpec.classified_as_classroom ifc)
                     (ClassCountChecker.label ty)
                     (ClassCountChecker.valid_counts ty)))).
Proof.
  intros ifc sel_key ty Hty.
  split; [apply _count_classrooms_classified|]. split.
  - unfold ClassCountChecker.SCHOOL_TYPES in Hty. cbn [ClassCountChecker.getitem] in Hty.
    destruct (String.eqb_spec "1" sel_key) as [<-|_].
    { injection Hty as <-. by left. }
    destruct (String.eqb_spec "2" sel_key) as [<-|_].
    { injection Hty as <-. right. by left. }
    destruct (String.eqb_spec "3" sel_key) as [<-|_]; [|done].
    injection Hty as <-. right. by right.
  - unfold ClassCountChecker.render_class_count_checker.
    rewrite Hty. cbn [bind]. rewrite _count_classrooms_classified.
    split; intros Hin.
    + by rewrite (proj2 (Z_in_spec _ _) Hin).
    + destruct (ClassCountChecker.Z_in _ _) eqn:Hz; [|done].
      by apply Z_in_spec in Hz.
Qed.

(** A first 3-year school: with 9 classrooms the rule passes; with 10 it
    fails and reports {6, 9, 12, 15}. *)
Lemma C9_nine_and_ten_witness :
  ClassCountChecker.render_class_count_checker
    (Some (SchoolExamples.classrooms 9)) "1"
  = Ok (Some (ClassCountChecker.result_ok 9 "first 3-year school"))
  ∧ ClassCountChecker.render_class_count_checker
      (Some (SchoolExamples.classrooms 10)) "1"
    = Ok (Some (ClassCountChecker.result_not_ok 10 "first 3-year school"
                  [6; 9; 12; 15]%Z)).
Proof.
  assert (H9 : RuleSpec.classified_as_classroom (SchoolExamples.classrooms 9)
               = 9%Z) by (vm_compute; reflexivity).
  assert (H10 : RuleSpec.classified_as_classroom (SchoolExamples.classrooms 10)
                = 10%Z) by (vm_compute; reflexivity).
  split.
  - destruct (C9_classroom_count (SchoolExamples.classrooms 9) "1" _ eq_refl)
      as (_ & _ & Hpass & _).
    rewrite H9 in Hpass. apply Hpass. set_solver.
  - destruct (C9_classroom_count (SchoolExamples.classrooms 10) "1" _ eq_refl)
      as (_ & _ & _ & Hfail).
    rewrite H10 in Hfail. apply Hfail.
    cbn [ClassCountChecker.valid_counts]. rewrite !elem_of_cons, elem_of_nil. lia.
Defined.

(* ===================================================================== *)
(** * Further properties of the checkers *)
(* ===================================================================== *)

(** ** Strings *)

Lemma lstrip_idem s : lstrip (lstrip s) = lstrip s.
Proof.
  induction s as [|c s IH]; simpl; [done|].
  destruct (isspace c) eqn:Hc; [done|]. simpl. by rewrite Hc.
Qed.

Lemma rstrip_idem s : rstrip (rstrip s) = rstrip s.
Proof.
  induction s as [|c s IH]; simpl; [done|].
  destruct (rstrip s) as [|c' r] eqn:Hr.
  - destruct (isspace c) eqn:Hc; simpl; [done|]. by rewrite Hc.
  - change (rstrip (String c (String c' r))) with
      (match rstrip (String c' r) with
       | EmptyString => if isspace c then EmptyString else String c EmptyString
       | String a b => String c (String a b)
       end).
    by rewrite IH.
Qed.

(** Stripping on the right keeps the first character of a string that does
    not start with white space. *)
Lemma lstrip_rstrip s : lstrip (rstrip (lstrip s)) = rstrip (lstrip s).
Proof.
  induction s as [|c s IH]; [done|].
  cbn [lstrip]. destruct (isspace c) eqn:Hc; [exact IH|].
  cbn [rstrip]. destruct (rstrip s); rewrite ?Hc; cbn [lstrip]; by rewrite Hc.
Qed.

Lemma strip_idem s : strip (strip s) = strip s.
Proof. unfold strip. by rewrite lstrip_rstrip, rstrip_idem. Qed.

(** ** Storey resolution reads the two chains only *)

Section Locality.
Import Hierarchy HierarchyReads.
Variables tbl tbl' : gmap ident entity.

Lemma parent_agree i : tbl' !! i = tbl !! i → parent tbl' i = parent tbl i.
Proof. unfold parent, entity_of. by intros ->. Qed.

Lemma is_storey_agree i :
  tbl' !! i = tbl !! i → is_storey tbl' i = is_storey tbl i.
Proof. unfold is_storey, entity_of. by intros ->. Qed.

End Locality.

Lemma resolves_functional tbl space r r' :
  Hierarchy.resolves tbl space r → Hierarchy.resolves tbl space r' → r = r'.
Proof.
  intros [(t & -> & Ht) | [Hp Hc]] [(t' & -> & Ht') | [Hp' Hc']].
  - exact (walk_spec_functional tbl _ (Some t) (Some t') Ht Ht').
  - by pose proof (walk_spec_functional tbl _ (Some t) None Ht Hp').
  - by pose proof (walk_spec_functional tbl _ None (Some t') Hp Ht').
  - exact (walk_spec_functional tbl _ r r' Hc Hc').
Qed.

Lemma _storey_of_space_resolves tbl space :
  Hierarchy.resolves tbl space (Hierarchy._storey_of_space tbl space).
Proof.
  destruct (storey_search_sound tbl space) as (r & Hr & Hres).
  unfold Hierarchy._storey_of_space. by rewrite Hr.
Qed.

Section LocalityOfWalks.
Import Hierarchy ObjectIdentity.
Variables tbl tbl' : gmap ident entity.
Variable id_ : ids.

Lemma climb_id_agree fuel : ∀ k st seen,
  (∀ j i, nth_ancestor tbl st j = Some i → tbl' !! i = tbl !! i) →
  climb fuel tbl' id_ k st seen = climb fuel tbl id_ k st seen.
Proof.
  induction fuel as [|f IH]; intros k st seen Hst.
  - by destruct st.
  - destruct st as [i|]; [|done]. cbn [climb].
    destruct (decide (id_ k ∈ seen)); [done|].
    rewrite (is_storey_agree tbl tbl' i) by (by apply (Hst 0)).
    rewrite (parent_agree tbl tbl' i) by (by apply (Hst 0)).
    rewrite IH; [done|]. intros j u Hu. by apply (Hst (S j)).
Qed.

End LocalityOfWalks.

Section OneObjectPerEntity.
Import Hierarchy ObjectIdentity.
Variable tbl : gmap ident entity.
Variable f : ident → address.
Hypothesis f_inj : Inj (=) (=) f.

Lemma nth_ancestor_add j : ∀ st m,
  nth_ancestor tbl st (j + m) = nth_ancestor tbl (nth_ancestor tbl st j) m.
Proof. induction j as [|j IH]; intros st m; [done|]. apply IH. Qed.

(** When every entity is one object for the time of a walk, a walk gets
    as far as the first storey of its chain. *)
Lemma reaches_one_object id_ st t :
  (∀ k i, nth_ancestor tbl st k = Some i → id_ k = f i) →
  first_storey tbl st t → reaches tbl id_ st t.
Proof.
  intros Hid (n & Hn & Ht & Hb). exists n. do 3 (split; [done|]).
  intros j k Hjk Hkn Heq.
  assert (Hsome : ∀ m, m ≤ n → is_Some (nth_ancestor tbl st m)).
  { intros m Hm. destruct (nth_ancestor tbl st m) as [u|] eqn:Hu; [eauto|].
    rewrite (nth_ancestor_None_ge tbl m n st Hu Hm) in Hn. discriminate. }
  destruct (Hsome j) as [u Hu]; [lia|]. destruct (Hsome k) as [v Hv]; [lia|].
  assert (u = v) as ->.
  { apply f_inj. by rewrite <- (Hid j u Hu), <- (Hid k v Hv). }
  assert (Hback : nth_ancestor tbl st (j + (n - k)) = Some t).
  { rewrite nth_ancestor_add, Hu, <- Hv, <- nth_ancestor_add.
    by replace (k + (n - k)) with n by lia. }
  rewrite (Hb (j + (n - k)) t) in Ht; [discriminate | lia | done].
Qed.

(** Up to any length, a chain has no storey or has a first one. *)
Lemma storey_free_or_first st k :
  (∀ j u, j < k → nth_ancestor tbl st j = Some u → is_storey tbl u = false)
  ∨ ∃ t, first_storey tbl st t.
Proof.
  induction k as [|k [IH|IH]]; [left; intros; lia | | by right].
  destruct (nth_ancestor tbl st k) as [u|] eqn:Hu.
  - destruct (is_storey tbl u) eqn:Hsto.
    + right. exists u, k. done.
    + left. intros j v Hj Hv. destruct (decide (j = k)) as [->|Hne].
      * rewrite Hu in Hv. by injection Hv as <-.
      * apply (IH j); [lia|done].
  - left. intros j v Hj Hv. destruct (decide (j = k)) as [->|Hne].
    + rewrite Hu in Hv. discriminate.
    + apply (IH j); [lia|done].
Qed.

Lemma reaches_first_storey id_ st t :
  reaches tbl id_ st t → first_storey tbl st t.
Proof. intros (n & Hn & Ht & Hb & _). by exists n. Qed.

End OneObjectPerEntity.

(** The resolver of [Hierarchy], with its visited set of entities, is the
    resolver under object identity in the case that every entity is one
    Python object for the time of a walk: addresses and entities then
    correspond one to one. *)
Lemma one_object_per_entity (tbl : gmap ident entity) (space : ident)
      (f : ident → ObjectIdentity.address) (id1 id2 : ObjectIdentity.ids)
      (fuel : nat) (r : option ident) :
  Inj (=) (=) f →
  (∀ k i, Hierarchy.nth_ancestor
            tbl (head (Decomposes (entity_of tbl space))) k = Some i →
          id1 k = f i) →
  (∀ k i, Hierarchy.nth_ancestor tbl (container (entity_of tbl space)) k
          = Some i → id2 k = f i) →
  ObjectIdentity._storey_of_space fuel tbl id1 id2 space = Done r →
  Hierarchy._storey_of_space tbl space = r.
Proof.
  intros Hf H1 H2 Hr. apply _storey_of_space_id_sound in Hr.
  apply (resolves_functional tbl space); [apply _storey_of_space_resolves|].
  destruct Hr as [(t & -> & Ht) | [Hnone Hw]].
  - left. exists t. split; [done|]. by eapply reaches_first_storey.
  - assert (Hfree : ∀ id_ st,
      (∀ k i, Hierarchy.nth_ancestor tbl st k = Some i → id_ k = f i) →
      (∀ t, ¬ ObjectIdentity.reaches tbl id_ st t) →
      Hierarchy.storey_free tbl st).
    { intros id_ st Hid Hno k u Hu.
      destruct (Hierarchy.is_storey tbl u) eqn:Hsto; [|done].
      exfalso.
      destruct (storey_free_or_first tbl st (S k)) as [Hnot|[t Ht]];
        [by rewrite (Hnot k u) in Hsto by (lia || done)|].
      apply (Hno t). by apply (reaches_one_object tbl f Hf). }
    right. split; [by apply (Hfree id1)|].
    destruct r as [t|]; simpl in *.
    + by eapply reaches_first_storey.
    + by apply (Hfree id2).
Qed.

(** X1: the addresses of its objects apart, what the resolver returns for
    a space depends only on the entities it reads: the space itself and
    the nodes on the two chains it follows. With the same addresses, two
    models that agree on these entities give the same result, whatever
    else differs between them. *)
Theorem X1_storey_resolution_is_local :
  ∀ (tbl tbl' : gmap ident entity) (space : ident) (fuel : nat)
    (id1 id2 : ObjectIdentity.ids),
    (∀ i, HierarchyReads.reads tbl space i → tbl' !! i = tbl !! i) →
    ObjectIdentity._storey_of_space fuel tbl' id1 id2 space
    = ObjectIdentity._storey_of_space fuel tbl id1 id2 space.
Proof.
  intros tbl tbl' space fuel id1 id2 Hagree.
  assert (He : entity_of tbl' space = entity_of tbl space).
  { unfold entity_of. rewrite Hagree; [done | by left]. }
  unfold ObjectIdentity._storey_of_space, ObjectIdentity.walk. rewrite He.
  rewrite (climb_id_agree tbl tbl' id2)
    by (intros j i Hj; apply Hagree; right; right; eauto).
  destruct (head (Decomposes (entity_of tbl space))) as [p|] eqn:Hp; [|done].
  rewrite (climb_id_agree tbl tbl' id1); [done|].
  intros j i Hj. apply Hagree. right. left. rewrite Hp. eauto.
Qed.

(** Replacing an entity off the chains of classroom 1 by a storey leaves
    the storey of the classroom as it was. *)
Lemma X1_small_school_witness :
  ObjectIdentity._storey_of_space
    2 MoreExamples.small_school_edited ObjectIdentity.alternating
    ObjectIdentity.alternating 1
  = ObjectIdentity._storey_of_space
      2 MoreExamples.small_school ObjectIdentity.alternating
      ObjectIdentity.alternating 1.
Proof.
  apply X1_storey_resolution_is_local.
  intros i [->|[[k Hk]|[k Hk]]].
  - reflexivity.
  - destruct k as [|k]; simpl in Hk.
    + injection Hk as <-. reflexivity.
    + change (Hierarchy.nth_ancestor MoreExamples.small_school None k = Some i)
        in Hk.
      rewrite nth_ancestor_None in Hk. discriminate.
  - change (Hierarchy.nth_ancestor MoreExamples.small_school None k = Some i)
      in Hk.
    rewrite nth_ancestor_None in Hk. discriminate.
Defined.

(** ** The parking verdict *)

Section VerdictFacts.
Import ParkingChecker ParkingRows.

Lemma Qfloor_ge_iff (z : Z) (x : Q) : (z ≤ Qfloor x)%Z ↔ (inject_Z z <= x)%Q.
Proof.
  split.
  - intros H. apply Qle_trans with (inject_Z (Qfloor x)); [|apply Qfloor_le].
    by rewrite <- Zle_Qle.
  - intros H. rewrite <- (Qfloor_Z z). by apply Qfloor_resp_le.
Qed.

Lemma Qltb_true x y : Qltb x y = true ↔ (x < y)%Q.
Proof.
  unfold Qltb. rewrite negb_true_iff. split.
  - intros H. apply Qnot_le_lt. intros Hle. apply Qle_bool_iff in Hle.
    congruence.
  - intros H. destruct (Qle_bool y x) eqn:Hle; [|done].
    apply Qle_bool_iff in Hle. by apply Qle_not_lt in Hle.
Qed.

Lemma raw_of_spec total :
  ((0 < total)%Q ∧ (raw_of total == total / 21)%Q)
  ∨ ((total <= 0)%Q ∧ (raw_of total == 0)%Q).
Proof.
  unfold raw_of. destruct (Qltb 0 total) eqn:Hlt.
  - left. apply Qltb_true in Hlt. split; [done|]. by rewrite SLOT_AREA_21.
  - right. split; [|reflexivity]. apply Qnot_lt_le. intros H.
    apply Qltb_true in H. congruence.
Qed.

Lemma div21_le a b : (a <= b)%Q → (a / 21 <= b / 21)%Q.
Proof. intros H. apply Qmult_le_compat_r; [done | discriminate]. Qed.

Lemma raw_of_nonneg total : (0 <= raw_of total)%Q.
Proof.
  destruct (raw_of_spec total) as [[Hpos ->]|[_ ->]]; [|done].
  apply Qle_shift_div_l; [reflexivity | lra].
Qed.

Lemma raw_of_mono a b : (a <= b)%Q → (raw_of a <= raw_of b)%Q.
Proof.
  intros Hab.
  destruct (raw_of_spec a) as [[Ha ->]|[Ha ->]];
    destruct (raw_of_spec b) as [[Hb ->]|[Hb ->]].
  - by apply div21_le.
  - lra.
  - apply Qle_shift_div_l; [reflexivity | lra].
  - done.
Qed.

Lemma req_slots_mono rs rs' a b :
  (a ≤ b)%Z →
  (req_slots (verdict rs a) ≤ req_slots (verdict rs' b))%Z.
Proof.
  intros Hab. cbn [verdict req_slots]. apply Qceiling_resp_le.
  apply Qmult_le_compat_r; [by rewrite <- Zle_Qle | done].
Qed.

Lemma ok_verdict rs staff_count :
  ok (verdict rs staff_count) = true
  ↔ (inject_Z (req_slots (verdict rs staff_count)) <= raw_of (sum_areas rs))%Q.
Proof. apply Qle_bool_iff. Qed.

Lemma req_slots_closed_form rs staff_count :
  req_slots (verdict rs staff_count) = ((staff_count + 2) / 3)%Z.
Proof.
  cbn [verdict req_slots].
  rewrite (Qceiling_comp _ (staff_count # 3)).
  - unfold Qceiling, Qfloor, Qopp. cbn [Qnum Qden].
    pose proof (Z.div_mod (- staff_count) 3) as H1.
    pose proof (Z.mod_pos_bound (- staff_count) 3) as H2.
    pose proof (Z.div_mod (staff_count + 2) 3) as H3.
    pose proof (Z.mod_pos_bound (staff_count + 2) 3) as H4.
    lia.
  - rewrite REQ_PER_STAFF_third. unfold Qeq, Qmult, inject_Z. cbn. lia.
Qed.

End VerdictFacts.

(** X2: on every report of the parking checker the three indicators agree:
    the rule passes exactly when the usable whole slots reach the required
    slots, exactly when the slot shortfall is 0, and exactly when the area
    shortfall is 0. Testing the continuous slots or the whole slots against
    the (whole) requirement gives the same verdict. *)
Theorem X2_pass_iff_no_shortfall :
  ∀ (lib : ParkingChecker.geom_backend) (ifc : model) (staff_count : Z)
    (rep : ParkingChecker.report),
    ParkingChecker.render_parking_checker lib ifc staff_count = Ok (Some rep) →
    (ParkingChecker.ok rep = true ↔
     (ParkingChecker.req_slots rep ≤ ParkingChecker.slots_int rep)%Z)
    ∧ (ParkingChecker.ok rep = true ↔ ParkingChecker.short_slots rep = 0%Z)
    ∧ (ParkingChecker.ok rep = true ↔ (ParkingChecker.short_area rep == 0)%Q).
Proof.
  intros lib ifc staff_count rep.
  unfold ParkingChecker.render_parking_checker.
  destruct (by_type_IfcSpace ifc) as [spaces|]; [|done]. cbn [bind].
  destruct spaces as [|s spaces]; [done|].
  destruct (ParkingChecker.collect_rows lib ifc _ (s :: spaces))
    as [rs|] eqn:Hrs; [|done].
  cbn [bind]. intros [= <-].
  apply collect_rows_nonneg in Hrs.
  assert (Hnn : (0 <= ParkingChecker.sum_areas rs)%Q).
  { rewrite sum_areas_totalArea. by apply totalArea_nonneg. }
  destruct (verdict_formulas rs staff_count Hnn)
    as (_ & Hraw & Hok & Hint & Hss & Hsa).
  set (rep := ParkingChecker.verdict rs staff_count) in *.
  assert (Hwhole : ParkingChecker.ok rep = true ↔
                   (ParkingChecker.req_slots rep ≤ ParkingChecker.slots_int rep)%Z).
  { rewrite Hok, Hint. symmetry. apply Qfloor_ge_iff. }
  split; [exact Hwhole|]. split.
  - rewrite Hwhole, Hss. lia.
  - rewrite Hsa, Hok, Hraw.
    rewrite Q.max_l_iff. split; intros H.
    + apply (Qmult_le_compat_r _ _ 21) in H; [|done].
      assert (ParkingChecker.total_area rep / 21 * 21
              == ParkingChecker.total_area rep)%Q as Hd by (field; discriminate).
      rewrite Hd in H. lra.
    + apply Qle_shift_div_l; [reflexivity | lra].
Qed.

(** The car park of 41 square metres with a staff of 9: the rule fails, the
    usable slot is below the 3 required, and both shortfalls are positive. *)
Lemma X2_car_park_witness :
  ∃ rep,
    ParkingChecker.render_parking_checker
      ParkingExamples.no_geometry ParkingExamples.car_park 9%Z = Ok (Some rep)
    ∧ ParkingChecker.ok rep = false
    ∧ ParkingChecker.short_slots rep ≠ 0%Z
    ∧ ¬ (ParkingChecker.short_area rep == 0)%Q.
Proof.
  destruct (ParkingChecker.render_parking_checker
              ParkingExamples.no_geometry ParkingExamples.car_park 9%Z)
    as [[rep|]|] eqn:Hrep; [|discriminate Hrep..].
  exists rep. split; [reflexivity|].
  destruct (X2_pass_iff_no_shortfall _ _ _ _ Hrep) as (_ & Hss & Hsa).
  assert (Hok : ParkingChecker.ok rep = false).
  { vm_compute in Hrep. injection Hrep as <-. reflexivity. }
  split; [exact Hok|]. split.
  - intros H. apply Hss in H. congruence.
  - intros H. apply Hsa in H. congruence.
Defined.

(** X3: the verdict is monotone: a parking total that passes for some staff
    count still passes with more area and with fewer staff. *)
Theorem X3_verdict_monotone :
  ∀ (rs rs' : list ParkingChecker.row) (staff_count staff_count' : Z),
    (ParkingChecker.sum_areas rs <= ParkingChecker.sum_areas rs')%Q →
    (staff_count' ≤ staff_count)%Z →
    ParkingChecker.ok (ParkingChecker.verdict rs staff_count) = true →
    ParkingChecker.ok (ParkingChecker.verdict rs' staff_count') = true.
Proof.
  intros rs rs' a b Harea Hstaff Hok.
  apply ok_verdict. apply ok_verdict in Hok.
  apply Qle_trans with (ParkingRows.raw_of (ParkingChecker.sum_areas rs));
    [|by apply raw_of_mono].
  apply Qle_trans with
    (inject_Z (ParkingChecker.req_slots (ParkingChecker.verdict rs a)));
    [|done].
  rewrite <- Zle_Qle. by apply req_slots_mono.
Qed.

(** 63 square metres pass for a staff of 9; so do 84 square metres for a
    staff of 8. *)
Lemma X3_more_area_fewer_staff_witness :
  ParkingChecker.ok
    (ParkingChecker.verdict [MoreExamples.row_with_area 84%Q] 8) = true.
Proof.
  apply (X3_verdict_monotone [MoreExamples.row_with_area 63%Q]
           [MoreExamples.row_with_area 84%Q] 9 8).
  - vm_compute. discriminate.
  - lia.
  - reflexivity.
Defined.

(** X4: the required slots are the integer quotient (staff + 2) / 3. A
    staff of 0 passes whatever the parking area; without any matched
    parking row the rule passes only for a staff of 0 (or below), and for a
    positive staff all required slots and 21 square metres for each are
    missing. *)
Theorem X4_required_slots_and_empty_parking :
  (∀ (rs : list ParkingChecker.row) (staff_count : Z),
     ParkingChecker.req_slots (ParkingChecker.verdict rs staff_count)
     = ((staff_count + 2) / 3)%Z)
  ∧ (∀ rs : list ParkingChecker.row,
       ParkingChecker.ok (ParkingChecker.verdict rs 0) = true)
  ∧ (∀ staff_count : Z,
       ParkingChecker.ok (ParkingChecker.verdict [] staff_count) = true
       ↔ (staff_count ≤ 0)%Z)
  ∧ (∀ staff_count : Z,
       (0 ≤ staff_count)%Z →
       ParkingChecker.short_slots (ParkingChecker.verdict [] staff_count)
       = ((staff_count + 2) / 3)%Z
       ∧ (ParkingChecker.short_area (ParkingChecker.verdict [] staff_count)
          == 21 * inject_Z ((staff_count + 2) / 3))%Q).
Proof.
  split; [apply req_slots_closed_form|]. split; [|split].
  - intros rs. apply ok_verdict. rewrite req_slots_closed_form.
    apply raw_of_nonneg.
  - intros staff_count. rewrite ok_verdict, req_slots_closed_form.
    assert (ParkingRows.raw_of (ParkingChecker.sum_areas []) == inject_Z 0)%Q
      as -> by reflexivity.
    rewrite <- Zle_Qle.
    pose proof (Z.div_mod (staff_count + 2) 3) as H1.
    pose proof (Z.mod_pos_bound (staff_count + 2) 3) as H2. lia.
  - intros staff_count Hpos.
    pose proof (req_slots_closed_form [] staff_count) as Hreq.
    assert (0 ≤ (staff_count + 2) / 3)%Z as Hq.
    { apply Z.div_pos; lia. }
    split.
    + change (ParkingChecker.short_slots (ParkingChecker.verdict [] staff_count))
        with (Z.max 0 (ParkingChecker.req_slots
                         (ParkingChecker.verdict [] staff_count) - 0)).
      rewrite Hreq. lia.
    + change (ParkingChecker.short_area (ParkingChecker.verdict [] staff_count))
        with (Qmax 0.0 (inject_Z (ParkingChecker.req_slots
                                    (ParkingChecker.verdict [] staff_count))
                        * ParkingChecker.SLOT_AREA - 0)).
      rewrite Hreq, SLOT_AREA_21. rewrite Q.max_r.
      * ring.
      * rewrite Zle_Qle in Hq. change (inject_Z 0) with 0%Q in Hq.
        assert (0.0 == 0)%Q as -> by reflexivity. lra.
Qed.

(** A staff of 9 and no matched parking row: 3 slots and 63 square metres
    are missing. *)
Lemma X4_nine_staff_no_parking_witness :
  ParkingChecker.short_slots (ParkingChecker.verdict [] 9) = 3%Z
  ∧ (ParkingChecker.short_area (ParkingChecker.verdict [] 9) == 63)%Q.
Proof.
  destruct (proj2 (proj2 (proj2 X4_required_slots_and_empty_parking)) 9%Z)
    as [Hs Ha]; [lia|].
  split; [exact Hs|]. rewrite Ha. reflexivity.
Defined.

(** ** Storey names *)

Lemma _prefer_storey_name_nonempty sto :
  ParkingChecker._prefer_storey_name sto ≠ ""%string.
Proof.
  unfold ParkingChecker._prefer_storey_name.
  destruct (String.eqb_spec
              (strip (or_empty (or_str (LongName sto) (or_str (Name sto) None))))
              "") as [->|Hne]; simpl; done.
Qed.

Lemma _prefer_storey_name_same sto :
  FloorsChecker._prefer_storey_name sto = ParkingChecker._prefer_storey_name sto.
Proof. reflexivity. Qed.

(** ** The rows of the parking table *)

Section RowFacts.
Import ParkingChecker ParkingRows.

Lemma _is_exact_parking_nonempty name :
  _is_exact_parking name = true → name ≠ ""%string.
Proof. intros H ->. discriminate H. Qed.

Lemma matches_parking_known tbl s :
  matches_parking tbl s = true → is_Some (tbl !! s).
Proof.
  unfold matches_parking, entity_of.
  destruct (tbl !! s); [eauto | discriminate].
Qed.

Lemma area_for_id_returns lib ifc scale_m s :
  is_Some (by_id ifc !! s) → ∃ a, area_for_id lib ifc scale_m s = Ok a.
Proof.
  intros [e He]. unfold area_for_id. rewrite He.
  destruct (_space_geom_area_m2_returns lib s scale_m) as [g ->].
  cbn [bind]. destruct (usable g); eauto.
Qed.

Lemma row_of_spec lib ifc scale_m s :
  if matches_parking (by_id ifc) s
  then ∃ r, row_of lib ifc scale_m s = Ok (Some r) ∧ _id r = s
  else row_of lib ifc scale_m s = Ok None.
Proof.
  destruct (matches_parking (by_id ifc) s) eqn:Hm.
  - destruct (area_for_id_returns lib ifc scale_m s) as [a Ha];
      [by apply matches_parking_known|].
    unfold row_of. unfold matches_parking in Hm. rewrite Hm, Ha.
    cbn [bind]. eauto.
  - unfold row_of. unfold matches_parking in Hm. by rewrite Hm.
Qed.

Lemma collect_rows_spec lib ifc scale_m : ∀ spaces,
  ∃ rs, collect_rows lib ifc scale_m spaces = Ok rs
        ∧ _id <$> rs
          = filter (λ s, matches_parking (by_id ifc) s = true) spaces.
Proof.
  induction spaces as [|s spaces (rs & Hrs & Hids)]; simpl; [by eexists|].
  pose proof (row_of_spec lib ifc scale_m s) as Hrow.
  rewrite filter_cons.
  destruct (matches_parking (by_id ifc) s).
  - destruct Hrow as (r & -> & Hid). rewrite Hrs. cbn [bind].
    eexists. split; [done|]. rewrite decide_True by done.
    rewrite fmap_cons. by rewrite Hid, Hids.
  - rewrite Hrow, Hrs. cbn [bind]. eexists. split; [done|].
    by rewrite decide_False by done.
Qed.

End RowFacts.

(** X5: on a loaded model the parking checker raises only when the
    enumeration of the spaces raises; without any space it returns before
    the verdict; otherwise it reports one row for each space whose long name or name is exactly
    "parking" (whatever the case and the surrounding blanks), in the order
    of the model, and no other row. *)
Theorem X5_rows_are_the_exact_matches :
  ∀ (lib : ParkingChecker.geom_backend) (ifc : model) (staff_count : Z),
    (by_type_IfcSpace ifc = Raise →
     ParkingChecker.render_parking_checker lib ifc staff_count = Raise)
    ∧ (by_type_IfcSpace ifc = Ok [] →
       ParkingChecker.render_parking_checker lib ifc staff_count = Ok None)
    ∧ (∀ spaces,
         by_type_IfcSpace ifc = Ok spaces → spaces ≠ [] →
         ∃ rep,
           ParkingChecker.render_parking_checker lib ifc staff_count
           = Ok (Some rep)
           ∧ ParkingChecker._id <$> ParkingChecker.rows rep
             = filter (λ s, ParkingRows.matches_parking (by_id ifc) s = true)
                      spaces).
Proof.
  intros lib ifc staff_count.
  unfold ParkingChecker.render_parking_checker.
  split; [by intros ->|]. split; [by intros ->|].
  intros spaces -> Hne. cbn [bind].
  destruct spaces as [|s spaces]; [done|].
  destruct (collect_rows_spec lib ifc
              (ParkingChecker._detect_length_scale_meters ifc) (s :: spaces))
    as (rs & -> & Hids).
  cbn [bind]. eexists. split; [done|]. exact Hids.
Qed.

(** The car park: of the spaces 1, 2 and 3, the two named "parking" give
    the rows. *)
Lemma X5_car_park_witness :
  ∃ rep,
    ParkingChecker.render_parking_checker
      ParkingExamples.no_geometry ParkingExamples.car_park 9%Z = Ok (Some rep)
    ∧ ParkingChecker._id <$> ParkingChecker.rows rep = [1; 2].
Proof.
  destruct (proj2 (proj2 (X5_rows_are_the_exact_matches
              ParkingExamples.no_geometry ParkingExamples.car_park 9%Z))
              [1; 2; 3] eq_refl) as (rep & Hrep & Hids); [discriminate|].
  exists rep. split; [exact Hrep|]. rewrite Hids. vm_compute. reflexivity.
Defined.

(** X6: no row of the parking table has an empty space name or an empty
    storey: the name is the stripped long name or name of the space, and
    the default "parking" is never needed. *)
Theorem X6_row_names_never_empty :
  ∀ (lib : ParkingChecker.geom_backend) (ifc : model) (scale_m : Q)
    (s : ident) (r : ParkingChecker.row),
    ParkingChecker.row_of lib ifc scale_m s = Ok (Some r) →
    ParkingChecker.Space_Name r ≠ ""%string
    ∧ ParkingChecker.Space_Name r
      = ParkingChecker._space_name (entity_of (by_id ifc) s)
    ∧ ParkingChecker.Storey r ≠ ""%string.
Proof.
  intros lib ifc scale_m s r. unfold ParkingChecker.row_of.
  set (e := entity_of (by_id ifc) s).
  set (ln := strip (or_empty (or_str (LongName e) None))).
  set (nm := strip (or_empty (or_str (Name e) None))).
  destruct (ParkingChecker._is_exact_parking ln
            || ParkingChecker._is_exact_parking nm) eqn:Hm; [|done].
  destruct (ParkingChecker.area_for_id lib ifc scale_m s) as [a|]; [|done].
  cbn [bind]. intros [= <-].
  cbn [ParkingChecker.Space_Name ParkingChecker.Storey].
  assert (Hname : ParkingChecker._space_name e ≠ ""%string).
  { unfold ParkingChecker._space_name. fold ln nm.
    destruct (String.eqb_spec ln "") as [Hln|Hln]; simpl; [|done].
    rewrite Hln in Hm. simpl in Hm.
    by apply _is_exact_parking_nonempty. }
  assert (Heq : (ParkingChecker._space_name e =? "")%string = false)
    by (by apply String.eqb_neq).
  rewrite Heq. simpl. split; [done|]. split; [done|].
  destruct (ParkingChecker._storey_of_space (by_id ifc) s) as [t|]; [|done].
  apply _prefer_storey_name_nonempty.
Qed.

(** The first parking space of the car park: its row is named "parking"
    and has the placeholder for a storey. *)
Lemma X6_car_park_row_witness :
  ∃ r,
    ParkingChecker.row_of ParkingExamples.no_geometry ParkingExamples.car_park
      1%Q 1 = Ok (Some r)
    ∧ ParkingChecker.Space_Name r ≠ ""%string
    ∧ ParkingChecker.Storey r ≠ ""%string.
Proof.
  destruct (ParkingChecker.row_of ParkingExamples.no_geometry
              ParkingExamples.car_park 1%Q 1) as [[r|]|] eqn:Hr;
    [|discriminate Hr..].
  exists r. split; [reflexivity|].
  destruct (X6_row_names_never_empty _ _ _ _ _ Hr) as (Hn & _ & Hs).
  split; [exact Hn | exact Hs].
Defined.

Section RoundFacts.

Lemma round_half_even_close x :
  (Qabs (inject_Z (round_half_even x) - x) <= 1 # 2)%Q.
Proof.
  unfold round_half_even.
  pose proof (Qfloor_le x) as Hlo. pose proof (Qlt_floor x) as Hhi.
  rewrite inject_Z_plus in Hhi. change (inject_Z 1) with 1%Q in Hhi.
  apply Qabs_Qle_condition.
  destruct (Qltb (x - inject_Z (Qfloor x)) (1 # 2)) eqn:H1.
  { apply Qltb_true in H1. lra. }
  assert (H1' : ¬ (x - inject_Z (Qfloor x) < 1 # 2)%Q).
  { intros H. apply Qltb_true in H. congruence. }
  apply Qnot_lt_le in H1'.
  destruct (Qltb (1 # 2) (x - inject_Z (Qfloor x))) eqn:H2.
  { rewrite inject_Z_plus. change (inject_Z 1) with 1%Q. lra. }
  assert (H2' : ¬ (1 # 2 < x - inject_Z (Qfloor x))%Q).
  { intros H. apply Qltb_true in H. congruence. }
  apply Qnot_lt_le in H2'.
  destruct (Z.even (Qfloor x)).
  - lra.
  - rewrite inject_Z_plus. change (inject_Z 1) with 1%Q. lra.
Qed.

Lemma round2_close x : (Qabs (round2 x - x) <= 1 # 200)%Q.
Proof.
  unfold round2. pose proof (round_half_even_close (x * 100)) as H.
  apply Qabs_Qle_condition in H. apply Qabs_Qle_condition.
  set (z := inject_Z (round_half_even (x * 100))) in *.
  assert (z / 100 == z * (1 # 100))%Q as -> by (field; discriminate).
  lra.
Qed.

End RoundFacts.

(** X7: the area shown in a row is the area computed for the space rounded
    to the hundredth: it differs from the computed area by at most 0.005
    square metres; a space without a computed area has no area in its row. *)
Theorem X7_row_area_is_rounded :
  ∀ (lib : ParkingChecker.geom_backend) (ifc : model) (scale_m : Q)
    (s : ident) (r : ParkingChecker.row),
    ParkingChecker.row_of lib ifc scale_m s = Ok (Some r) →
    (ParkingChecker.area_for_id lib ifc scale_m s = Ok None
     ∧ ParkingChecker.Area_m2 r = None)
    ∨ ∃ v, ParkingChecker.area_for_id lib ifc scale_m s = Ok (Some v)
           ∧ ParkingChecker.Area_m2 r = Some (round2 v)
           ∧ (Qabs (round2 v - v) <= 1 # 200)%Q.
Proof.
  intros lib ifc scale_m s r. unfold ParkingChecker.row_of.
  destruct (_ || _); [|done].
  destruct (ParkingChecker.area_for_id lib ifc scale_m s) as [a|] eqn:Ha;
    [|done].
  cbn [bind]. intros [= <-]. cbn [ParkingChecker.Area_m2].
  destruct a as [v|]; [|by left]. right. exists v.
  split; [done|]. split; [|apply round2_close].
  assert (truthy_float v = true) as ->; [|done].
  apply area_for_id_positive in Ha.
  unfold truthy_float. destruct (Qeq_bool v 0) eqn:He; [|done].
  apply Qeq_bool_iff in He. rewrite He in Ha. by apply Qlt_irrefl in Ha.
Qed.

(** The first parking space of the car park: 20.5 square metres computed,
    20.5 shown. *)
Lemma X7_car_park_row_witness :
  ∃ r v,
    ParkingChecker.row_of ParkingExamples.no_geometry ParkingExamples.car_park
      1%Q 1 = Ok (Some r)
    ∧ ParkingChecker.Area_m2 r = Some (round2 v)
    ∧ (v == 20.5)%Q.
Proof.
  destruct (ParkingChecker.row_of ParkingExamples.no_geometry
              ParkingExamples.car_park 1%Q 1) as [[r|]|] eqn:Hr;
    [|discriminate Hr..].
  destruct (X7_row_area_is_rounded _ _ _ _ _ Hr)
    as [[Hnone _]|(v & Hv & Hround & _)]; [discriminate Hnone|].
  exists r, v. split; [reflexivity|]. split; [exact Hround|].
  injection Hv as <-. reflexivity.
Defined.

(** ** The mesh and the fallback *)

Section MeshFacts.
Import ParkingChecker ParkingRows.

Lemma vertex_lookup vs i :
  vertex vs i =
    match vs !! (3 * i), vs !! (3 * i + 1), vs !! (3 * i + 2) with
    | Some x, Some y, Some z => Ok (x, y, z)
    | _, _, _ => Raise
    end.
Proof.
  unfold vertex.
  rewrite <- (Nat.add_0_r (3 * i)) at 2.
  rewrite <- !lookup_drop.
  by destruct (drop (3 * i) vs) as [|x [|y [|z rest]]].
Qed.

Lemma vertex_in_range vs i :
  (∃ v, vertex vs i = Ok v) ↔ 3 * i + 3 ≤ length vs.
Proof.
  rewrite vertex_lookup. split.
  - intros [v Hv].
    destruct (vs !! (3 * i + 2)) as [z|] eqn:Hz.
    + apply lookup_lt_Some in Hz. lia.
    + by destruct (vs !! (3 * i)), (vs !! (3 * i + 1)).
  - intros Hlen.
    destruct (lookup_lt_is_Some_2 vs (3 * i)) as [x ->]; [lia|].
    destruct (lookup_lt_is_Some_2 vs (3 * i + 1)) as [y ->]; [lia|].
    destruct (lookup_lt_is_Some_2 vs (3 * i + 2)) as [z ->]; [lia|].
    eauto.
Qed.

Lemma triangles_loop_well_formed vs scale : ∀ fs,
  (∃ tris, triangles_loop vs fs scale = Ok tris)
  ↔ length fs `mod` 3 = 0 ∧ Forall (λ i, 3 * i + 3 ≤ length vs) fs.
Proof.
  fix IH 1. intros [|i0 [|i1 [|i2 rest]]].
  - simpl. split; [intros _; split; [done | constructor] | eauto].
  - simpl. split; [by intros [? ?] | by intros [? _]].
  - simpl. split; [by intros [? ?] | by intros [? _]].
  - specialize (IH rest).
    change (length (i0 :: i1 :: i2 :: rest)) with (3 + length rest).
    replace ((3 + length rest) `mod` 3) with (length rest `mod` 3)
      by (rewrite <- (Nat.Div0.add_mod_idemp_l 3); reflexivity).
    rewrite !Forall_cons, <- !vertex_in_range.
    cbn [triangles_loop]. split.
    + intros [tris H].
      destruct (vertex vs i0) as [[[x0 y0] z0]|]; [|done].
      destruct (vertex vs i1) as [[[x1 y1] z1]|]; [|done].
      destruct (vertex vs i2) as [[[x2 y2] z2]|]; [|done].
      cbn [bind] in H.
      destruct (triangles_loop vs rest scale) as [ts|] eqn:Hts; [|done].
      destruct IH as [IH _]. destruct IH as [Hm Hf]; [eauto|].
      repeat split; eauto.
    + intros (Hm & [[[x0 y0] z0] ->] & [[[x1 y1] z1] ->]
              & [[[x2 y2] z2] ->] & Hf).
      destruct IH as [_ IH]. destruct IH as [ts ->]; [done|].
      cbn [bind]. eauto.
Qed.

Lemma vertex_same_plan vs vs' i x y z :
  same_plan vs vs' → vertex vs i = Ok (x, y, z) →
  ∃ z', vertex vs' i = Ok (x, y, z').
Proof.
  intros [Hlen Hxy]. rewrite !vertex_lookup.
  destruct (Hxy i) as [<- <-].
  destruct (vs !! (3 * i)) as [x'|]; [|done].
  destruct (vs !! (3 * i + 1)) as [y'|]; [|done].
  destruct (vs !! (3 * i + 2)) as [z'|] eqn:Hz; [|done].
  intros [= -> -> ->].
  destruct (lookup_lt_is_Some_2 vs' (3 * i + 2)) as [z'' ->]; [|eauto].
  apply lookup_lt_Some in Hz. lia.
Qed.

Lemma triangles_loop_same_plan vs vs' scale :
  same_plan vs vs' → ∀ fs tris,
  triangles_loop vs fs scale = Ok tris →
  ∃ tris', triangles_loop vs' fs scale = Ok tris'
           ∧ Forall2 triangle_eq tris tris'.
Proof.
  intros Hplan. fix IH 1. intros [|i0 [|i1 [|i2 rest]]] tris;
    cbn [triangles_loop]; [|done|done|].
  - intros [= <-]. eexists. split; [done | constructor].
  - destruct (vertex vs i0) as [[[x0 y0] z0]|] eqn:H0; [|done].
    destruct (vertex vs i1) as [[[x1 y1] z1]|] eqn:H1; [|done].
    destruct (vertex vs i2) as [[[x2 y2] z2]|] eqn:H2; [|done].
    cbn [bind].
    destruct (triangles_loop vs rest scale) as [ts|] eqn:Hts; [|done].
    cbn [bind]. intros [= <-].
    destruct (vertex_same_plan _ _ _ _ _ _ Hplan H0) as [z0' ->].
    destruct (vertex_same_plan _ _ _ _ _ _ Hplan H1) as [z1' ->].
    destruct (vertex_same_plan _ _ _ _ _ _ Hplan H2) as [z2' ->].
    destruct (IH rest ts Hts) as (ts' & -> & Hts').
    cbn [bind]. eexists. split; [done|]. constructor; [|done].
    unfold triangle_eq, point_eq. cbn [fst snd].
    repeat split; try reflexivity. ring.
Qed.

Lemma quantities_loop_find qs :
  quantities_loop qs =
    match list_find (λ qa, usable (AreaValue qa) = true) qs with
    | Some (_, qa) => AreaValue qa
    | None => None
    end.
Proof.
  induction qs as [|qa qs IH]; [done|].
  cbn [quantities_loop list_find].
  destruct (usable (AreaValue qa)) eqn:Hu.
  - by rewrite decide_True.
  - rewrite decide_False by congruence. rewrite IH.
    by destruct (list_find _ qs) as [[? ?]|].
Qed.

Lemma quantities_loop_app qs qs' :
  quantities_loop (qs ++ qs') =
    match quantities_loop qs with
    | Some v => Some v
    | None => quantities_loop qs'
    end.
Proof.
  induction qs as [|qa qs IH]; simpl; [done|].
  destruct (usable (AreaValue qa)) eqn:Hu; [|done].
  destruct (AreaValue qa); [done | discriminate Hu].
Qed.

Lemma relations_loop_flat space :
  relations_loop (IsDefinedBy space) = quantities_loop (all_quantities space).
Proof.
  unfold all_quantities.
  induction (IsDefinedBy space) as [|rel rels IH]; [done|].
  cbn [relations_loop flat_map].
  destruct (RelatingPropertyDefinition rel) as [q|]; [|exact IH].
  rewrite quantities_loop_app, IH.
  by destruct (quantities_loop (Quantities q)).
Qed.

End MeshFacts.

(** X8: the triangle extraction succeeds exactly on well-formed buffers:
    the index buffer holds a multiple of three indices and each index
    addresses three coordinates of the vertex buffer; on any other mesh it
    raises. It then yields one triangle per index triple. *)
Theorem X8_triangles_need_well_formed_buffers :
  ∀ (sh : shape) (scale : Q),
    ((∃ tris, ParkingChecker._triangles_from_shape sh scale = Ok tris)
     ↔ length (faces sh) `mod` 3 = 0
       ∧ Forall (λ i, 3 * i + 3 ≤ length (verts sh)) (faces sh))
    ∧ (ParkingChecker._triangles_from_shape sh scale = Raise
       ↔ ¬ (length (faces sh) `mod` 3 = 0
            ∧ Forall (λ i, 3 * i + 3 ≤ length (verts sh)) (faces sh)))
    ∧ (∀ tris, ParkingChecker._triangles_from_shape sh scale = Ok tris →
               3 * length tris = length (faces sh)).
Proof.
  intros sh scale. unfold ParkingChecker._triangles_from_shape.
  pose proof (triangles_loop_well_formed (verts sh) scale (faces sh)) as H.
  split; [exact H|]. split.
  - rewrite <- H.
    destruct (ParkingChecker.triangles_loop (verts sh) (faces sh) scale).
    + split; [done|]. intros Hn. destruct Hn. eauto.
    + split; [|done]. by intros _ [? ?].
  - intros tris. apply triangles_loop_length.
Qed.

(** The floor triangle: three indices, one triangle. *)
Lemma X8_floor_mesh_witness :
  ∃ tris,
    ParkingChecker._triangles_from_shape FootprintExamples.floor_mesh 1%Q
    = Ok tris
    ∧ 3 * length tris = 3.
Proof.
  destruct (proj2 (proj1 (X8_triangles_need_well_formed_buffers
                            FootprintExamples.floor_mesh 1%Q)))
    as [tris Htris].
  - split; [reflexivity|]. repeat constructor.
  - exists tris. split; [exact Htris|].
    exact (proj2 (proj2 (X8_triangles_need_well_formed_buffers
                           FootprintExamples.floor_mesh 1%Q)) tris Htris).
Defined.

(** X9: the vertical coordinates of the mesh do not matter: two vertex
    buffers that agree in length and in the two horizontal coordinates of
    every vertex give, for the same index buffer and scale, triangles with
    equal corners. *)
Theorem X9_vertical_coordinate_is_ignored :
  ∀ (sh sh' : shape) (scale : Q) (tris : list ParkingChecker.triangle),
    faces sh' = faces sh →
    ParkingRows.same_plan (verts sh) (verts sh') →
    ParkingChecker._triangles_from_shape sh scale = Ok tris →
    ∃ tris', ParkingChecker._triangles_from_shape sh' scale = Ok tris'
             ∧ Forall2 ParkingRows.triangle_eq tris tris'.
Proof.
  intros sh sh' scale tris Hf Hplan.
  unfold ParkingChecker._triangles_from_shape. rewrite Hf.
  by apply triangles_loop_same_plan.
Qed.

(** The wall triangle and the same triangle laid flat on the ground give
    the same corners. *)
Lemma X9_wall_laid_flat_witness :
  ∃ tris',
    ParkingChecker._triangles_from_shape
      {| verts := [0; 0; 0; 1; 0; 0; 1; 0; 0]%Q; faces := [0; 1; 2] |} 1%Q
    = Ok tris'
    ∧ Forall2 ParkingRows.triangle_eq
        [((0 * 1, 0 * 1), (1 * 1, 0 * 1), (1 * 1, 3 * 0 + 0 * 1))%Q] tris'.
Proof.
  apply (X9_vertical_coordinate_is_ignored FootprintExamples.wall_mesh
           {| verts := [0; 0; 0; 1; 0; 0; 1; 0; 0]%Q; faces := [0; 1; 2] |}
           1%Q).
  - reflexivity.
  - split; [reflexivity|]. intros i.
    destruct i as [|[|[|i]]]; [split; reflexivity..|].
    cbn [verts FootprintExamples.wall_mesh].
    rewrite !lookup_ge_None_2 by (simpl; lia). done.
  - reflexivity.
Defined.

(** X10: whenever the geometric path gives nothing, the area of a space is
    its fallback area: with the geometry libraries missing, with a mesh
    generation that raises, with a mesh without triangles or with
    ill-formed buffers, and with a polygon union that raises. *)
Theorem X10_no_geometry_means_fallback :
  ∀ (lib : ParkingChecker.geom_backend) (ifc : model) (scale_m : Q)
    (space_id : ident) (s : entity),
    by_id ifc !! space_id = Some s →
    ParkingChecker.available lib = false
    ∨ ParkingChecker.create_shape lib space_id = Raise
    ∨ (∃ sh, ParkingChecker.create_shape lib space_id = Ok sh
             ∧ (faces sh = []
                ∨ ParkingChecker._triangles_from_shape sh scale_m = Raise
                ∨ ∃ tris,
                    ParkingChecker._triangles_from_shape sh scale_m = Ok tris
                    ∧ ParkingChecker.unary_union_area lib
                        (ParkingChecker.Polygon <$> tris) = Raise)) →
    ParkingChecker.area_for_id lib ifc scale_m space_id
    = Ok (ParkingChecker._fallback_space_area_m2 s).
Proof.
  intros lib ifc scale_m space_id s Hs Hcase.
  unfold ParkingChecker.area_for_id. rewrite Hs.
  assert (ParkingChecker._space_geom_area_m2 lib space_id scale_m = Ok None)
    as ->; [|done].
  unfold ParkingChecker._space_geom_area_m2, ParkingChecker.catch.
  destruct Hcase as [->|[Hc|(sh & Hsh & Hcase)]]; [done| |].
  - destruct (negb _); [done|]. by rewrite Hc.
  - destruct (negb _); [done|]. rewrite Hsh.
    destruct Hcase as [Hf|[Ht|(tris & Ht & Hu)]].
    + unfold ParkingChecker._triangles_from_shape. by rewrite Hf.
    + by rewrite Ht.
    + rewrite Ht. cbn [bind]. rewrite Hu.
      by destruct (ParkingChecker.Polygon <$> tris).
Qed.

(** Without the geometry libraries the parking space of 12.5 square metres
    keeps the area of its attribute. *)
Lemma X10_no_library_witness :
  ParkingChecker.area_for_id ParkingExamples.no_geometry
    FootprintExamples.parking_model 1%Q 7 = Ok (Some 12.5%Q).
Proof.
  apply (X10_no_geometry_means_fallback ParkingExamples.no_geometry
           FootprintExamples.parking_model 1%Q 7
           FootprintExamples.parking_space eq_refl).
  left. reflexivity.
Defined.

(** X11: the fallback area of a space is the area value of the first
    quantity, over all its property definitions in order, whose value is
    strictly positive; only when there is no such quantity is it the [Area]
    attribute, if that is strictly positive; otherwise there is none. *)
Theorem X11_fallback_is_first_positive_quantity :
  ∀ space : entity,
    ParkingChecker._fallback_space_area_m2 space =
      match list_find (λ qa, ParkingChecker.usable (AreaValue qa) = true)
                      (ParkingRows.all_quantities space) with
      | Some (_, qa) => AreaValue qa
      | None =>
          if ParkingChecker.usable (Area space) then Area space else None
      end.
Proof.
  intros space. unfold ParkingChecker._fallback_space_area_m2.
  rewrite relations_loop_flat, quantities_loop_find.
  destruct (list_find _ _) as [[i qa]|] eqn:Hfind; [|done].
  apply list_find_Some in Hfind as (_ & Hu & _).
  unfold ParkingChecker.usable in Hu.
  by destruct (AreaValue qa).
Qed.

(** X12: the unit scale of a model is one of five numbers: 1, 0.001, 0.01,
    0.1 and 0.3048. *)
Theorem X12_unit_scale_range :
  ∀ ifc : model,
    ParkingChecker._detect_length_scale_meters ifc
    ∈ [1.0; 0.001; 0.01; 0.1; 0.3048]%Q.
Proof.
  intros ifc. unfold ParkingChecker._detect_length_scale_meters.
  assert (Hunit : ∀ u v, ParkingChecker.unit_scale u = Some v →
                         v ∈ [1.0; 0.001; 0.01; 0.1; 0.3048]%Q).
  { intros u v. unfold ParkingChecker.unit_scale, ParkingChecker.metre_scale.
    repeat (match goal with
            | |- context [if ?b then _ else _] => destruct b
            end);
      intros [= <-]; set_solver. }
  assert (Hscan : ∀ us, ParkingChecker.scan_units us
                        ∈ [1.0; 0.001; 0.01; 0.1; 0.3048]%Q).
  { induction us as [|u us IH]; simpl; [set_solver|].
    destruct (ParkingChecker.unit_scale u) as [v|] eqn:Hu; [|done].
    by eapply Hunit. }
  destruct (by_type_IfcUnitAssignment ifc) as [[|ua uas]|]; simpl;
    [set_solver | apply Hscan | set_solver].
Qed.

(** ** The order of strings *)

Lemma ascii_compare_Lt_trans a b c :
  Ascii.compare a b = Lt → Ascii.compare b c = Lt → Ascii.compare a c = Lt.
Proof.
  unfold Ascii.compare. rewrite !N.compare_lt_iff. apply N.lt_trans.
Qed.

Lemma ascii_compare_refl a : Ascii.compare a a = Eq.
Proof. unfold Ascii.compare. apply N.compare_refl. Qed.

Lemma string_compare_not_Gt_trans : ∀ s1 s2 s3,
  String.compare s1 s2 ≠ Gt → String.compare s2 s3 ≠ Gt →
  String.compare s1 s3 ≠ Gt.
Proof.
  induction s1 as [|c1 s1 IH]; intros [|c2 s2] [|c3 s3]; simpl; try done.
  destruct (Ascii.compare c1 c2) eqn:H12; [| |done];
    destruct (Ascii.compare c2 c3) eqn:H23; try done.
  - apply Ascii.compare_eq_iff in H12 as ->.
    apply Ascii.compare_eq_iff in H23 as ->.
    rewrite ascii_compare_refl. apply IH.
  - apply Ascii.compare_eq_iff in H12 as ->. by rewrite H23.
  - apply Ascii.compare_eq_iff in H23 as <-. by rewrite H12.
  - by rewrite (ascii_compare_Lt_trans _ _ _ H12 H23).
Qed.

Lemma string_leb_not_Gt s1 s2 :
  String.leb s1 s2 = true ↔ String.compare s1 s2 ≠ Gt.
Proof. unfold String.leb. by destruct (String.compare s1 s2). Qed.

Lemma string_leb_trans s1 s2 s3 :
  String.leb s1 s2 = true → String.leb s2 s3 = true → String.leb s1 s3 = true.
Proof. rewrite !string_leb_not_Gt. apply string_compare_not_Gt_trans. Qed.

Lemma lower_le_trans : Transitive FloorsChecker.lower_le.
Proof. intros a b c. apply string_leb_trans. Qed.

Lemma lower_le_total : Total FloorsChecker.lower_le.
Proof. intros a b. apply String.leb_total. Qed.

Lemma str_le_trans : Transitive FloorsSummary.str_le.
Proof. intros a b c. apply string_leb_trans. Qed.

Lemma str_le_total : Total FloorsSummary.str_le.
Proof. intros a b. apply String.leb_total. Qed.

(** ** More string facts *)

Lemma lstrip_length s : String.length (lstrip s) ≤ String.length s.
Proof.
  induction s as [|c s IH]; simpl; [done|].
  destruct (isspace c); simpl; lia.
Qed.

(** A stripped string that is not empty starts with a character that is no
    white space. *)
Lemma strip_head s c r : strip s = String c r → isspace c = false.
Proof.
  intros H. pose proof (lstrip_rstrip s) as Hl. fold (strip s) in Hl.
  rewrite H in Hl. simpl in Hl.
  destruct (isspace c); [|done].
  pose proof (lstrip_length r) as Hlen. rewrite Hl in Hlen. simpl in Hlen. lia.
Qed.

Lemma rstrip_keeps_head c r :
  isspace c = false → rstrip (String c r) ≠ ""%string.
Proof. intros Hc. simpl. destruct (rstrip r); by rewrite ?Hc. Qed.

Lemma strip_keeps_head c r :
  isspace c = false → strip (String c r) ≠ ""%string.
Proof.
  intros Hc. unfold strip. simpl. rewrite Hc. by apply rstrip_keeps_head.
Qed.

(** ** The records and levels of the floors checker *)

Lemma remove_dups_length_le (l : list string) :
  length (remove_dups l) ≤ length l.
Proof.
  induction l as [|x l IH]; simpl; [done|].
  case_decide; simpl; lia.
Qed.

Section RecordFacts.
Import FloorsChecker.
Variable tbl : gmap ident entity.

Lemma contains_classroom_nonempty s :
  contains "classroom" (_norm s) = true → s ≠ ""%string.
Proof. intros H ->. discriminate H. Qed.

Lemma storey_name_of_nonempty sp : storey_name_of tbl sp ≠ ""%string.
Proof.
  unfold storey_name_of. destruct (_storey_of_space tbl sp); [|done].
  rewrite _prefer_storey_name_same. apply _prefer_storey_name_nonempty.
Qed.

Lemma record_of_nonempty sp :
  is_classroom_space tbl sp = true →
  Space_Name (record_of tbl sp) ≠ ""%string
  ∧ Labeled_Name (record_of tbl sp) ≠ ""%string
  ∧ Storey (record_of tbl sp) ≠ ""%string.
Proof.
  unfold is_classroom_space. intros Hcls.
  apply contains_classroom_nonempty in Hcls.
  cbn [record_of Space_Name Labeled_Name Storey].
  set (longname := _prefer_longname (entity_of tbl sp)) in *.
  set (room := strip (or_empty (or_str (Name (entity_of tbl sp)) None))).
  set (stripped := strip (remove_ignorecase "classroom" 0 longname)).
  split; [done|]. split; [|apply storey_name_of_nonempty].
  assert (Hlnc : (if negb (stripped =? "")%string then stripped else longname)
                 ≠ ""%string).
  { destruct (String.eqb_spec stripped "") as [_|Hne]; simpl; done. }
  destruct (String.eqb_spec room "") as [_|Hroom]; simpl; [done|].
  destruct room as [|c r] eqn:Hr; [done|].
  apply strip_head in Hr. by apply strip_keeps_head.
Qed.

End RecordFacts.

(** X13: no record of the floors checker has an empty space name, an empty
    labelled name or an empty storey, and no level is an empty name: a
    storey without a name is listed as "Unnamed Storey (...)", a space
    without a storey under "(No storey)". *)
Theorem X13_record_names_never_empty :
  ∀ (ifc : model) (max_allowed : Z) (rep : FloorsChecker.report),
    FloorsChecker.render_floors_with_classrooms ifc max_allowed = Some rep →
    (∀ r, r ∈ FloorsChecker.records rep →
          FloorsChecker.Space_Name r ≠ ""%string
          ∧ FloorsChecker.Labeled_Name r ≠ ""%string
          ∧ FloorsChecker.Storey r ≠ ""%string)
    ∧ ""%string ∉ FloorsChecker.levels rep.
Proof.
  intros ifc max_allowed rep H.
  apply render_floors_inv in H as (spaces_all & _ & Hrec & Hlev & _).
  assert (Hall : ∀ r, r ∈ FloorsChecker.records rep →
          FloorsChecker.Space_Name r ≠ ""%string
          ∧ FloorsChecker.Labeled_Name r ≠ ""%string
          ∧ FloorsChecker.Storey r ≠ ""%string).
  { intros r Hr. rewrite Hrec in Hr.
    apply list_elem_of_fmap in Hr as (sp & -> & Hsp).
    apply list_elem_of_filter in Hsp as [Hcls _].
    apply record_of_nonempty. by destruct (FloorsChecker.is_classroom_space _ sp). }
  split; [exact Hall|].
  rewrite Hlev, merge_sort_Permutation, elem_of_elements, elem_of_list_to_set.
  intros Hin. apply list_elem_of_fmap in Hin as (r & Hr & Hin).
  destruct (Hall r Hin) as (_ & _ & Hs). congruence.
Qed.

(** The school with a stray classroom: its four levels, the placeholder
    among them, are all named. *)
Lemma X13_stray_classroom_witness :
  ∃ rep,
    FloorsChecker.render_floors_with_classrooms
      SchoolExamples.three_levels_and_a_stray 3 = Some rep
    ∧ length (FloorsChecker.levels rep) = 4
    ∧ ""%string ∉ FloorsChecker.levels rep.
Proof.
  destruct (FloorsChecker.render_floors_with_classrooms
              SchoolExamples.three_levels_and_a_stray 3) as [rep|] eqn:Hrep;
    [|vm_compute in Hrep; discriminate Hrep].
  exists rep. split; [reflexivity|].
  split; [|exact (proj2 (X13_record_names_never_empty _ _ _ Hrep))].
  vm_compute in Hrep. injection Hrep as <-. reflexivity.
Defined.

(** X14: the levels of a report are the storey names of its records, each
    once, in alphabetical order regardless of case. *)
Theorem X14_levels_distinct_and_sorted :
  ∀ (ifc : model) (max_allowed : Z) (rep : FloorsChecker.report),
    FloorsChecker.render_floors_with_classrooms ifc max_allowed = Some rep →
    NoDup (FloorsChecker.levels rep)
    ∧ StronglySorted FloorsChecker.lower_le (FloorsChecker.levels rep)
    ∧ ∀ s, s ∈ FloorsChecker.levels rep
           ↔ ∃ r, r ∈ FloorsChecker.records rep ∧ FloorsChecker.Storey r = s.
Proof.
  intros ifc max_allowed rep H.
  apply render_floors_inv in H as (_ & _ & _ & Hlev & _).
  rewrite Hlev. split; [|split].
  - rewrite merge_sort_Permutation. apply NoDup_elements.
  - apply (@StronglySorted_merge_sort _ _ _ lower_le_trans lower_le_total).
  - intros s.
    rewrite merge_sort_Permutation, elem_of_elements, elem_of_list_to_set,
      list_elem_of_fmap.
    split; intros (r & Hr1 & Hr2); exists r; done.
Qed.

(** The school on four levels: its levels are listed once each, in order. *)
Lemma X14_four_levels_witness :
  ∃ rep,
    FloorsChecker.render_floors_with_classrooms SchoolExamples.four_levels 3
    = Some rep
    ∧ FloorsChecker.levels rep = ["Level 1"; "Level 2"; "Level 3"; "Level 4"]
    ∧ NoDup (FloorsChecker.levels rep).
Proof.
  destruct (FloorsChecker.render_floors_with_classrooms
              SchoolExamples.four_levels 3) as [rep|] eqn:Hrep;
    [|vm_compute in Hrep; discriminate Hrep].
  exists rep. split; [reflexivity|].
  split; [|exact (proj1 (X14_levels_distinct_and_sorted _ _ _ Hrep))].
  vm_compute in Hrep. injection Hrep as <-. reflexivity.
Defined.

(** X15: on a loaded model the floors checker gives no report only when the
    enumeration of the spaces raises. Otherwise there are at most as many levels as there
    are classroom records, and at most as many records as spaces; a model
    without classroom spaces has no level and passes for every limit that
    is not negative; and a model that passes for one limit passes for every
    greater one. *)
Theorem X15_level_count_bounds :
  ∀ (ifc : model) (max_allowed : Z),
    (by_type_IfcSpace ifc = Raise →
     FloorsChecker.render_floors_with_classrooms ifc max_allowed = None)
    ∧ ∀ spaces_all,
        by_type_IfcSpace ifc = Ok spaces_all →
        ∃ rep,
          FloorsChecker.render_floors_with_classrooms ifc max_allowed = Some rep
          ∧ (0 ≤ FloorsChecker.count_levels rep
             ≤ Z.of_nat (length (FloorsChecker.records rep)))%Z
          ∧ length (FloorsChecker.records rep) ≤ length spaces_all
          ∧ (FloorsChecker.records rep = [] →
             (0 ≤ max_allowed)%Z →
             FloorsChecker.levels rep = []
             ∧ FloorsChecker.outcome rep = FloorsChecker.Standard 0 max_allowed)
          ∧ ∀ max_allowed' rep',
              (max_allowed ≤ max_allowed')%Z →
              FloorsChecker.render_floors_with_classrooms ifc max_allowed'
              = Some rep' →
              FloorsChecker.outcome rep
              = FloorsChecker.Standard (FloorsChecker.count_levels rep)
                                       max_allowed →
              FloorsChecker.outcome rep'
              = FloorsChecker.Standard (FloorsChecker.count_levels rep)
                                       max_allowed'.
Proof.
  intros ifc max_allowed. split.
  { unfold FloorsChecker.render_floors_with_classrooms. by intros ->. }
  intros spaces_all Hsp.
  destruct (FloorsChecker.render_floors_with_classrooms ifc max_allowed)
    as [rep|] eqn:Hrep.
  2:{ unfold FloorsChecker.render_floors_with_classrooms in Hrep.
      rewrite Hsp in Hrep. by destruct (FloorsChecker.collect _ _ _ _). }
  exists rep. split; [done|].
  pose proof (floor_verdict_by_distinct_storeys _ _ _ Hrep)
    as (Hc & Hpass & Hfail).
  pose proof (render_floors_inv _ _ _ Hrep)
    as (spaces' & Hsp' & Hrec & Hlev & _ & Ho).
  rewrite Hsp in Hsp'. injection Hsp' as <-.
  assert (Hle : (FloorsChecker.count_levels rep
                 ≤ Z.of_nat (length (FloorsChecker.records rep)))%Z).
  { rewrite Hc. unfold RuleSpec.distinct_storeys.
    rewrite <- (length_fmap FloorsChecker.Storey (FloorsChecker.records rep)).
    apply Nat2Z.inj_le, remove_dups_length_le. }
  split; [|split; [|split]].
  - split; [rewrite Hc; unfold RuleSpec.distinct_storeys; lia | exact Hle].
  - rewrite Hrec, length_fmap. apply length_filter.
  - intros Hnil Hmax. rewrite Hnil in Hle, Hlev. simpl in Hle.
    assert (Hc0 : FloorsChecker.count_levels rep = 0%Z).
    { rewrite Hc. unfold RuleSpec.distinct_storeys in *. lia. }
    split; [rewrite Hlev; vm_compute; reflexivity|].
    rewrite Ho, Hc0. by rewrite (proj2 (Z.leb_le 0 max_allowed) Hmax).
  - intros max' rep' Hmax Hrep' Hstd.
    pose proof (floor_verdict_by_distinct_storeys _ _ _ Hrep')
      as (Hc' & Hpass' & _).
    pose proof (render_floors_inv _ _ _ Hrep')
      as (spaces'' & Hsp'' & Hrec' & _).
    rewrite Hsp in Hsp''. injection Hsp'' as <-.
    assert (Hsame : FloorsChecker.records rep' = FloorsChecker.records rep)
      by (by rewrite Hrec, Hrec').
    rewrite Hsame in Hpass'. rewrite Hc. apply Hpass'.
    rewrite Ho in Hstd.
    destruct (Z.leb_spec (FloorsChecker.count_levels rep) max_allowed);
      [|discriminate Hstd].
    rewrite <- Hc. lia.
Qed.

(** A model passing with a limit of 3 passes with a limit of 5. *)
Lemma X15_three_levels_witness :
  ∃ rep',
    FloorsChecker.render_floors_with_classrooms SchoolExamples.three_levels 5
    = Some rep'
    ∧ FloorsChecker.outcome rep' = FloorsChecker.Standard 3 5.
Proof.
  destruct (proj2 (X15_level_count_bounds SchoolExamples.three_levels 3)
              [1; 2; 3] eq_refl) as (rep & Hrep & _ & _ & _ & Hmono).
  destruct (FloorsChecker.render_floors_with_classrooms
              SchoolExamples.three_levels 5) as [rep'|] eqn:Hrep';
    [|vm_compute in Hrep'; discriminate Hrep'].
  exists rep'. split; [reflexivity|].
  assert (Hc : FloorsChecker.count_levels rep = 3%Z).
  { vm_compute in Hrep. injection Hrep as <-. reflexivity. }
  rewrite <- Hc. apply (Hmono 5%Z rep'); [lia | exact Hrep' |].
  vm_compute in Hrep. injection Hrep as <-. reflexivity.
Defined.

(** ** The summary by storey *)

Section SummaryFacts.
Import FloorsChecker FloorsSummary.

Lemma sum_list_cons (x : nat) (l : list nat) :
  sum_list (x :: l) = x + sum_list l.
Proof. reflexivity. Qed.

Lemma group_sizes_cons (r : record_) (l : list record_) (ks : list string) :
  sum_list ((λ k, length (filter (λ x, Storey x = k) (r :: l))) <$> ks)
  = sum_list ((λ k, if decide (Storey r = k) then 1 else 0) <$> ks)
    + sum_list ((λ k, length (filter (λ x, Storey x = k) l)) <$> ks).
Proof.
  induction ks as [|k ks IH]; [done|].
  rewrite !fmap_cons, !sum_list_cons, IH, filter_cons.
  case_decide; simpl; lia.
Qed.

Lemma indicator_sum (x : string) (ks : list string) :
  NoDup ks →
  sum_list ((λ k, if decide (x = k) then 1 else 0) <$> ks)
  = if decide (x ∈ ks) then 1 else 0.
Proof.
  induction 1 as [|k ks Hk _ IH]; [done|].
  rewrite fmap_cons, sum_list_cons, IH. destruct (decide (x = k)) as [->|Hne].
  - rewrite decide_False by done. by rewrite decide_True by set_solver.
  - destruct (decide (x ∈ ks)).
    + by rewrite decide_True by set_solver.
    + by rewrite decide_False by set_solver.
Qed.

Lemma group_sizes_total (l : list record_) (ks : list string) :
  NoDup ks → (∀ r, r ∈ l → Storey r ∈ ks) →
  sum_list ((λ k, length (filter (λ x, Storey x = k) l)) <$> ks) = length l.
Proof.
  intros Hnd. induction l as [|r l IH]; intros Hcover.
  - clear Hnd Hcover. induction ks as [|k ks IH]; [done|].
    by rewrite fmap_cons, sum_list_cons, IH.
  - rewrite group_sizes_cons, indicator_sum by done.
    rewrite decide_True by (apply Hcover; set_solver).
    rewrite IH; [done|]. intros x Hx. apply Hcover. set_solver.
Qed.

Lemma summary_keys (records : list record_) :
  fst <$> summary records
  = merge_sort str_le (remove_dups (Storey <$> records)).
Proof.
  unfold summary. rewrite <- list_fmap_compose.
  induction (merge_sort _ _); simpl; [done|]. by f_equal.
Qed.

Lemma summary_sizes (records : list record_) :
  foldr Z.add 0%Z (snd <$> summary records)
  = Z.of_nat (sum_list ((λ k, length (filter (λ x, Storey x = k) records))
                          <$> merge_sort str_le
                                (remove_dups (Storey <$> records)))).
Proof.
  unfold summary. induction (merge_sort _ _) as [|k ks IH]; [done|].
  rewrite !fmap_cons, sum_list_cons. cbn [foldr snd]. rewrite IH.
  unfold size_of_group. lia.
Qed.

Lemma key_in_summary (records : list record_) (k : string) :
  k ∈ merge_sort str_le (remove_dups (Storey <$> records))
  ↔ ∃ r, r ∈ records ∧ Storey r = k.
Proof.
  rewrite merge_sort_Permutation, elem_of_remove_dups, list_elem_of_fmap.
  split; intros (r & H1 & H2); exists r; done.
Qed.

End SummaryFacts.

(** X16: the summary by storey has one line per distinct storey name of the
    records, in ascending order; every line counts at least one record, and
    the counts add up to the number of records. For the records of a report
    the summary has as many lines as the report has levels. *)
Theorem X16_summary_counts_add_up :
  ∀ records : list FloorsChecker.record_,
    foldr Z.add 0%Z (snd <$> FloorsSummary.summary records)
    = Z.of_nat (length records)
    ∧ NoDup (fst <$> FloorsSummary.summary records)
    ∧ StronglySorted FloorsSummary.str_le (fst <$> FloorsSummary.summary records)
    ∧ (∀ k n, (k, n) ∈ FloorsSummary.summary records →
              (1 ≤ n)%Z ∧ ∃ r, r ∈ records ∧ FloorsChecker.Storey r = k)
    ∧ (∀ r, r ∈ records →
            ∃ n, (FloorsChecker.Storey r, n) ∈ FloorsSummary.summary records)
    ∧ Z.of_nat (length (FloorsSummary.summary records))
      = RuleSpec.distinct_storeys records.
Proof.
  intros records.
  split; [|split; [|split; [|split; [|split]]]].
  - rewrite summary_sizes. f_equal. apply group_sizes_total.
    + rewrite merge_sort_Permutation. apply NoDup_remove_dups.
    + intros r Hr. apply key_in_summary. eauto.
  - rewrite summary_keys, merge_sort_Permutation. apply NoDup_remove_dups.
  - rewrite summary_keys.
    apply (@StronglySorted_merge_sort _ _ _ str_le_trans str_le_total).
  - intros k n Hin. unfold FloorsSummary.summary in Hin.
    apply list_elem_of_fmap in Hin as (k' & [= -> ->] & Hk).
    apply key_in_summary in Hk as (r & Hr & Hk). split; [|eauto].
    unfold FloorsSummary.size_of_group.
    assert (r ∈ filter (λ x, FloorsChecker.Storey x = k') records) as Hf
      by (by apply list_elem_of_filter).
    destruct (filter _ records); [by apply elem_of_nil in Hf | simpl; lia].
  - intros r Hr. exists (FloorsSummary.size_of_group records (FloorsChecker.Storey r)).
    unfold FloorsSummary.summary. apply list_elem_of_fmap.
    exists (FloorsChecker.Storey r). split; [done|].
    apply key_in_summary. eauto.
  - unfold FloorsSummary.summary, RuleSpec.distinct_storeys.
    by rewrite length_fmap, merge_sort_Permutation.
Qed.

(** The records of the school on four levels: four lines, one classroom
    each. *)
Lemma X16_four_levels_witness :
  foldr Z.add 0%Z
    (snd <$> FloorsSummary.summary
       (FloorsChecker.record_of (by_id SchoolExamples.four_levels)
          <$> [1; 2; 3; 4]))
  = 4%Z.
Proof.
  exact (proj1 (X16_summary_counts_add_up
                  (FloorsChecker.record_of (by_id SchoolExamples.four_levels)
                     <$> [1; 2; 3; 4]))).
Defined.

(** ** The select box of the classroom-count checker *)

Section SelectFacts.
Import ClassCountChecker ClassCountSelect.

Lemma prefix_head_differs a s1 b s2 :
  a ≠ b → String.prefix (String a s1) (String b s2) = false.
Proof. intros H. simpl. by destruct (ascii_dec a b). Qed.

Lemma before_first_no_blank (k rest : string) :
  (∀ c, c ∈ list_ascii_of_string k → c ≠ " "%char) →
  before_first separator (k ++ separator ++ rest) = k.
Proof.
  induction k as [|c k IH]; intros Hk.
  - destruct rest; reflexivity.
  - change (String c k ++ separator ++ rest)%string
      with (String c (k ++ separator ++ rest)%string).
    assert (c ≠ " "%char) as Hc by (apply Hk; simpl; set_solver).
    change (before_first separator (String c (k ++ separator ++ rest)%string))
      with (if String.prefix separator (String c (k ++ separator ++ rest)%string)
            then ""%string
            else String c (before_first separator (k ++ separator ++ rest)%string)).
    unfold separator at 1. rewrite prefix_head_differs by congruence.
    f_equal. apply IH. intros a Ha. apply Hk. simpl. set_solver.
Qed.

Lemma getitem_key key ty :
  getitem SCHOOL_TYPES key = Ok ty →
  ∀ c, c ∈ list_ascii_of_string key → c ≠ " "%char.
Proof.
  unfold SCHOOL_TYPES. cbn [getitem].
  destruct (String.eqb_spec "1" key) as [<-|_].
  { intros _ c Hc. simpl in Hc. set_solver. }
  destruct (String.eqb_spec "2" key) as [<-|_].
  { intros _ c Hc. simpl in Hc. set_solver. }
  destruct (String.eqb_spec "3" key) as [<-|_]; [|done].
  intros _ c Hc. simpl in Hc. set_solver.
Qed.

Lemma labels_for_spec : ∀ ks ls sel,
  labels_for ks = Ok ls → sel ∈ ls →
  ∃ k ty, k ∈ ks ∧ getitem SCHOOL_TYPES k = Ok ty
          ∧ sel = (k ++ separator ++ label ty)%string.
Proof.
  induction ks as [|k ks IH]; intros ls sel; cbn [labels_for].
  - intros [= <-] Hin. by apply elem_of_nil in Hin.
  - unfold label_for at 1.
    destruct (getitem SCHOOL_TYPES k) as [ty|] eqn:Hty; [|done]. cbn [bind].
    destruct (labels_for ks) as [ls'|] eqn:Hls; [|done]. cbn [bind].
    intros [= <-] Hin. apply elem_of_cons in Hin as [->|Hin].
    + exists k, ty. split; [set_solver | done].
    + destruct (IH ls' sel eq_refl Hin) as (k' & ty' & Hk' & Hty' & Hsel).
      exists k', ty'. split; [set_solver | done].
Qed.

End SelectFacts.

(** X17: the key read back from a select-box entry is the key the entry was
    built from, whenever the key holds no blank; the entries offered are
    the three of the table, in its order, and for each of them the checker
    finds the school type: on a loaded model the checker never raises for
    an offered entry. *)
Theorem X17_selection_round_trip :
  (∀ k rest : string,
     (∀ c, c ∈ list_ascii_of_string k → c ≠ " "%char) →
     ClassCountSelect.before_first ClassCountSelect.separator
       (k ++ ClassCountSelect.separator ++ rest) = k)
  ∧ (∃ ls, ClassCountSelect.labels = Ok ls ∧ length ls = 3)
  ∧ (∀ ls sel (ifc : model),
       ClassCountSelect.labels = Ok ls → sel ∈ ls →
       ∃ k ty,
         ClassCountChecker.getitem ClassCountChecker.SCHOOL_TYPES k = Ok ty
         ∧ sel = (k ++ ClassCountSelect.separator
                    ++ ClassCountChecker.label ty)%string
         ∧ ClassCountSelect.before_first ClassCountSelect.separator sel = k
         ∧ ∃ v, ClassCountSelect.render_selected (Some ifc) sel = Ok (Some v)).
Proof.
  split; [apply before_first_no_blank|]. split.
  { eexists. split; reflexivity. }
  intros ls sel ifc Hls Hin.
  destruct (labels_for_spec _ _ _ Hls Hin) as (k & ty & _ & Hty & ->).
  exists k, ty. split; [done|]. split; [done|].
  assert (Hk : ClassCountSelect.before_first ClassCountSelect.separator
                 (k ++ ClassCountSelect.separator ++ ClassCountChecker.label ty)
               = k).
  { apply before_first_no_blank. by eapply getitem_key. }
  split; [exact Hk|].
  unfold ClassCountSelect.render_selected,
    ClassCountChecker.render_class_count_checker.
  rewrite Hk, Hty. cbn [bind].
  destruct (ClassCountChecker.Z_in _ _); eauto.
Qed.

(** The second entry of the select box reads back as the key "2". *)
Lemma X17_second_entry_witness :
  ClassCountSelect.before_first ClassCountSelect.separator
    "2 — second 3-year school" = "2"%string.
Proof.
  apply (proj1 X17_selection_round_trip "2" "second 3-year school").
  intros c Hc. simpl in Hc. set_solver.
Defined.

(** ** Counting classrooms *)

Lemma classified_bounds ifc :
  (0 ≤ RuleSpec.classified_as_classroom ifc
   ≤ Z.of_nat (length (try_except (by_type_IfcSpace ifc) [])))%Z.
Proof.
  unfold RuleSpec.classified_as_classroom. split; [lia|].
  apply Nat2Z.inj_le, length_filter.
Qed.

(** X18: the classroom count lies between 0 and the number of spaces, and
    it is 0 when the enumeration of the spaces raises. For every school
    type of the table a passing count is a multiple of 3 between 6 and 18:
    a model with fewer than 6 classrooms (an empty one, one whose
    enumeration fails) never meets the standard, and the message then
    carries the permitted counts. *)
Theorem X18_count_bounds_and_small_models :
  ∀ (ifc : model) (sel_key : string) (ty : ClassCountChecker.school_type),
    ClassCountChecker.getitem ClassCountChecker.SCHOOL_TYPES sel_key = Ok ty →
    (0 ≤ ClassCountChecker._count_classrooms ifc
     ≤ Z.of_nat (length (try_except (by_type_IfcSpace ifc) [])))%Z
    ∧ (by_type_IfcSpace ifc = Raise →
       ClassCountChecker._count_classrooms ifc = 0%Z)
    ∧ (∀ count label,
         ClassCountChecker.render_class_count_checker (Some ifc) sel_key
         = Ok (Some (ClassCountChecker.result_ok count label)) →
         (6 ≤ count ≤ 18)%Z ∧ (count mod 3 = 0)%Z)
    ∧ ((ClassCountChecker._count_classrooms ifc < 6)%Z →
       ClassCountChecker.render_class_count_checker (Some ifc) sel_key
       = Ok (Some (ClassCountChecker.result_not_ok
                     (ClassCountChecker._count_classrooms ifc)
                     (ClassCountChecker.label ty)
                     (ClassCountChecker.valid_counts ty)))).
Proof.
  intros ifc sel_key ty Hty.
  assert (Hvalid : ∀ x, x ∈ ClassCountChecker.valid_counts ty →
                        (6 ≤ x ≤ 18)%Z ∧ (x mod 3 = 0)%Z).
  { unfold ClassCountChecker.SCHOOL_TYPES in Hty.
    cbn [ClassCountChecker.getitem] in Hty.
    repeat (match type of Hty with
            | context [String.eqb ?a ?b] => destruct (String.eqb a b)
            end; [injection Hty as <-;
                  cbn [ClassCountChecker.valid_counts]; intros x Hx;
                  repeat (apply elem_of_cons in Hx as [->|Hx]; [by split|]);
                  by apply elem_of_nil in Hx|]).
    done. }
  split; [|split; [|split]].
  - rewrite _count_classrooms_classified. apply classified_bounds.
  - intros Hr. unfold ClassCountChecker._count_classrooms. by rewrite Hr.
  - intros count label.
    unfold ClassCountChecker.render_class_count_checker.
    rewrite Hty. cbn [bind].
    destruct (ClassCountChecker.Z_in _ _) eqn:Hin; [|done].
    intros [= <- _]. apply Hvalid. by apply Z_in_spec.
  - intros Hsmall.
    unfold ClassCountChecker.render_class_count_checker.
    rewrite Hty. cbn [bind].
    destruct (ClassCountChecker.Z_in _ _) eqn:Hin; [|done].
    apply Z_in_spec, Hvalid in Hin. lia.
Qed.

(** A model whose space enumeration raises counts 0 classrooms and fails
    for a mixed-type school. *)
Lemma X18_failed_enumeration_witness :
  ClassCountChecker.render_class_count_checker
    (Some {| by_id := ∅; by_type_IfcSpace := Raise;
             by_type_IfcUnitAssignment := Raise |}) "3"
  = Ok (Some (ClassCountChecker.result_not_ok 0 "mixed type" [6; 12; 18]%Z)).
Proof.
  refine (proj2 (proj2 (proj2 (X18_count_bounds_and_small_models
            {| by_id := ∅; by_type_IfcSpace := Raise;
               by_type_IfcUnitAssignment := Raise |} "3" _ eq_refl))) _).
  vm_compute. reflexivity.
Defined.

(** X19: on names in ASCII the two classifiers agree on the long name: a
    space that the classroom count recognises by its long name, or by its
    name when it has no long name, is also listed by the floors checker.
    (Outside ASCII [casefold] and [lower] part ways, on the sharp s for
    one, and a name the count recognises can escape the floors checker.) *)
Theorem X19_counted_by_long_name_is_listed :
  ∀ (tbl : gmap ident entity) (sp : ident),
    (∀ s, LongName (entity_of tbl sp) = Some s
          ∨ Name (entity_of tbl sp) = Some s → isascii s = true) →
    ClassCountChecker._norm (LongName (entity_of tbl sp)) = "classroom"%string
    ∨ (truthy_str (LongName (entity_of tbl sp)) = false
       ∧ ClassCountChecker._norm (Name (entity_of tbl sp)) = "classroom"%string) →
    ClassCountChecker._space_is_classroom (entity_of tbl sp) = true
    ∧ FloorsChecker.is_classroom_space tbl sp = true.
Proof.
  intros tbl sp _ H. set (e := entity_of tbl sp) in *.
  assert (Hnorm : ∀ o : option string,
            ClassCountChecker._norm o = "classroom"%string →
            ∃ s, o = Some s ∧ truthy_str o = true
                 ∧ lower (strip s) = "classroom"%string).
  { intros [s|]; [|discriminate]. unfold ClassCountChecker._norm, or_str.
    destruct (truthy_str (Some s)) eqn:Ht; [|discriminate]. eauto. }
  assert (Hfloors : ∀ s, lower (strip s) = "classroom"%string →
            contains "classroom" (FloorsChecker._norm (strip s)) = true).
  { intros s Hs. unfold FloorsChecker._norm. by rewrite strip_idem, Hs. }
  unfold FloorsChecker.is_classroom_space, FloorsChecker._prefer_longname.
  fold e. split.
  - unfold ClassCountChecker._space_is_classroom.
    destruct H as [H|[_ H]]; apply Hnorm in H as (s & Hs & _ & Hl).
    + rewrite Hs. cbn [filter list_filter]. rewrite decide_True by eauto.
      cbn [existsb]. unfold ClassCountChecker._norm at 1.
      replace (or_str (Some s) None) with (Some s)
        by (unfold or_str; destruct (truthy_str (Some s)) eqn:Ht; [done|];
            unfold truthy_str in Ht; destruct s; discriminate).
      cbn [or_empty]. unfold casefold. by rewrite Hl.
    + rewrite Hs. apply existsb_exists. exists (Some s). split.
      * apply list_elem_of_In, list_elem_of_filter. split; [eauto|].
        set_solver.
      * unfold ClassCountChecker._norm.
        replace (or_str (Some s) None) with (Some s)
          by (unfold or_str; destruct (truthy_str (Some s)) eqn:Ht; [done|];
              unfold truthy_str in Ht; destruct s; discriminate).
        cbn [or_empty]. unfold casefold. by rewrite Hl.
  - destruct H as [H|[Hln H]]; apply Hnorm in H as (s & Hs & Ht & Hl).
    + unfold or_str at 1. rewrite Ht, Hs. cbn [or_empty]. by apply Hfloors.
    + unfold or_str at 1. rewrite Hln.
      unfold or_str. rewrite Ht, Hs. cbn [or_empty]. by apply Hfloors.
Qed.

(** A space with long name "Classroom" is counted and listed. *)
Lemma X19_classroom_witness :
  ClassCountChecker._space_is_classroom
    (entity_of (by_id SchoolExamples.four_levels) 1) = true
  ∧ FloorsChecker.is_classroom_space (by_id SchoolExamples.four_levels) 1 = true.
Proof.
  apply X19_counted_by_long_name_is_listed.
  - intros s [H|H]; vm_compute in H; injection H as <-; reflexivity.
  - left. vm_compute. reflexivity.
Defined.

(** ** What the resolver returns *)




(** ** The figures of the parking report *)

(** X21: no figure of a parking report is negative (the required slots for
    a staff that is not negative), and on a failing report the two
    shortfalls fit together: at least one slot is missing, and the missing
    area is at least 21 square metres times one less than the missing
    slots, and at most 21 square metres times the missing slots. *)
Theorem X21_report_figures_fit_together :
  ∀ (lib : ParkingChecker.geom_backend) (ifc : model) (staff_count : Z)
    (rep : ParkingChecker.report),
    ParkingChecker.render_parking_checker lib ifc staff_count = Ok (Some rep) →
    (0 <= ParkingChecker.total_area rep)%Q
    ∧ (0 <= ParkingChecker.slots_raw rep)%Q
    ∧ (0 ≤ ParkingChecker.slots_int rep)%Z
    ∧ (0 ≤ ParkingChecker.short_slots rep)%Z
    ∧ (0 <= ParkingChecker.short_area rep)%Q
    ∧ ((0 ≤ staff_count)%Z → (0 ≤ ParkingChecker.req_slots rep)%Z)
    ∧ (ParkingChecker.ok rep = false →
       (1 ≤ ParkingChecker.short_slots rep)%Z
       ∧ (21 * inject_Z (ParkingChecker.short_slots rep - 1)
          <= ParkingChecker.short_area rep)%Q
       ∧ (ParkingChecker.short_area rep
          <= 21 * inject_Z (ParkingChecker.short_slots rep))%Q).
Proof.
  intros lib ifc staff_count rep.
  unfold ParkingChecker.render_parking_checker.
  destruct (by_type_IfcSpace ifc) as [spaces|]; [|done]. cbn [bind].
  destruct spaces as [|s spaces]; [done|].
  destruct (ParkingChecker.collect_rows lib ifc _ (s :: spaces))
    as [rs|] eqn:Hrs; [|done].
  cbn [bind]. intros [= <-].
  apply collect_rows_nonneg in Hrs.
  assert (Hnn : (0 <= ParkingChecker.sum_areas rs)%Q).
  { rewrite sum_areas_totalArea. by apply totalArea_nonneg. }
  destruct (verdict_formulas rs staff_count Hnn)
    as (Hreq & Hraw & Hok & Hint & Hss & Hsa).
  pose proof (req_slots_closed_form rs staff_count) as Hclosed.
  set (rep := ParkingChecker.verdict rs staff_count) in *.
  assert (Htot : (0 <= ParkingChecker.total_area rep)%Q) by exact Hnn.
  assert (Hrawnn : (0 <= ParkingChecker.slots_raw rep)%Q).
  { rewrite Hraw. apply Qle_shift_div_l; [reflexivity | lra]. }
  assert (Hintnn : (0 ≤ ParkingChecker.slots_int rep)%Z).
  { rewrite Hint. by apply Qfloor_ge_iff. }
  pose proof (Qfloor_le (ParkingChecker.slots_raw rep)) as Hlo.
  pose proof (Qlt_floor (ParkingChecker.slots_raw rep)) as Hhi.
  rewrite <- Hint in Hlo, Hhi.
  rewrite inject_Z_plus in Hhi. change (inject_Z 1) with 1%Q in Hhi.
  assert (Hmul : (ParkingChecker.total_area rep
                  == 21 * ParkingChecker.slots_raw rep)%Q).
  { rewrite Hraw. field. }
  split; [done|]. split; [done|]. split; [done|].
  split; [rewrite Hss; lia|].
  split; [rewrite Hsa; apply Q.le_max_l|].
  split.
  { intros Hstaff. rewrite Hclosed. apply Z.div_pos; lia. }
  intros Hfail.
  assert (Hlt : (ParkingChecker.slots_raw rep
                 < inject_Z (ParkingChecker.req_slots rep))%Q).
  { apply Qnot_le_lt. intros Hle. apply Hok in Hle. congruence. }
  assert (Hz : (ParkingChecker.slots_int rep < ParkingChecker.req_slots rep)%Z).
  { apply Z.nle_gt. intros Hle. rewrite Zle_Qle in Hle. lra. }
  assert (Hss' : ParkingChecker.short_slots rep
                 = (ParkingChecker.req_slots rep - ParkingChecker.slots_int rep)%Z)
    by (rewrite Hss; lia).
  assert (Hsa' : (ParkingChecker.short_area rep
                  == inject_Z (ParkingChecker.req_slots rep) * 21
                     - ParkingChecker.total_area rep)%Q).
  { rewrite Hsa. apply Q.max_r. lra. }
  split; [lia|].
  rewrite Hsa', Hss'.
  unfold Z.sub. rewrite !inject_Z_plus, !inject_Z_opp.
  change (inject_Z 1) with 1%Q.
  split; lra.
Qed.

(** The car park of 41 square metres with a staff of 9: 2 slots and 22
    square metres are missing, at least 21 and at most 42. *)
Lemma X21_car_park_witness :
  ∃ rep,
    ParkingChecker.render_parking_checker
      ParkingExamples.no_geometry ParkingExamples.car_park 9%Z = Ok (Some rep)
    ∧ (21 * inject_Z (ParkingChecker.short_slots rep - 1)
       <= ParkingChecker.short_area rep)%Q
    ∧ (ParkingChecker.short_area rep
       <= 21 * inject_Z (ParkingChecker.short_slots rep))%Q.
Proof.
  destruct (ParkingChecker.render_parking_checker
              ParkingExamples.no_geometry ParkingExamples.car_park 9%Z)
    as [[rep|]|] eqn:Hrep; [|discriminate Hrep..].
  exists rep. split; [reflexivity|].
  destruct (X21_report_figures_fit_together _ _ _ _ Hrep)
    as (_ & _ & _ & _ & _ & _ & Hfail).
  destruct Hfail as (_ & Hlo & Hhi); [|split; [exact Hlo | exact Hhi]].
  vm_compute in Hrep. injection Hrep as <-. reflexivity.
Defined.
